(** * workouts-to-ical: validation, classification, formatting and merge

    A shallow embedding of [WorkoutData.ts] (the Ajv schema and the
    [isWorkoutData] guard), [CalendarWorkoutEvent.ts] (allow-list, title,
    body) and [DataFile.ts] together with [sql/workouts.sql] (the store,
    [mergeData], [getCalendarWorkoutEvents]), followed by the properties
    stated about them. *)

From Stdlib Require Import ZArith QArith Qround Qabs String Ascii List Lia.
From Stdlib Require Import DecimalString.
From stdpp Require Import base list strings.

Set Warnings "-register-all".
Local Open Scope string_scope.
Local Open Scope Z_scope.

(** ** Values received from the exporter

    A posted workout is whatever [JSON.parse] produced: the JavaScript view
    of a JSON text.  Numbers are the finite ones; they are kept as exact
    rationals (every double is one).  An object is its list of own
    properties, the first binding of a key being the property. *)

Inductive json : Type :=
| JNull
| JBool (b : bool)
| JNum (q : Q)
| JStr (s : string)
| JArr (xs : list json)
| JObj (kvs : list (string * json)).

(** The rows of a table of such values. *)
Abbreviation table := (list json).

Fixpoint assoc {A} (k : string) (kvs : list (string * A)) : option A :=
  match kvs with
  | [] => None
  | (k', v) :: rest => if String.eqb k k' then Some v else assoc k rest
  end.

(** [v.k] on a non-null value: the own property, [undefined] ([None])
    otherwise (primitives and arrays carry none of the keys read here). *)
Definition js_get (k : string) (v : json) : option json :=
  match v with
  | JObj kvs => assoc k kvs
  | _ => None
  end.

(** JavaScript truthiness of a possibly-undefined value, as used by
    [if( isIndoor )]. *)
Definition js_truthy (v : option json) : bool :=
  match v with
  | None | Some JNull => false
  | Some (JBool b) => b
  | Some (JNum q) => negb (Qeq_bool q 0)
  | Some (JStr s) => negb (String.eqb s "")
  | Some (JArr _) | Some (JObj _) => true
  end.

(** [v === "literal"] for a possibly-undefined value. *)
Definition strict_eq_string (v : option json) (lit : string) : bool :=
  match v with
  | Some (JStr s) => String.eqb s lit
  | _ => false
  end.

(** ** JSON schema, as much of it as [workoutDataSchema] uses *)

Inductive jstype := TString | TNumber | TBoolean | TObject.

Inductive schema : Type :=
| Schema (type : jstype) (nullable : bool) (format : option string)
         (properties : list (string * schema)) (required : list string).

Definition has_type (t : jstype) (v : json) : bool :=
  match t, v with
  | TString, JStr _ => true
  | TNumber, JNum _ => true
  | TBoolean, JBool _ => true
  | TObject, JObj _ => true
  | _, _ => false
  end.

(** Calls that may raise: the value returned, or the exception. *)
Inductive outcome (A : Type) : Type :=
| Returned (a : A)
| Thrown.
Arguments Returned {A} a.
Arguments Thrown {A}.

#[export] Instance outcome_bind : MBind outcome :=
  fun A B (k : A -> outcome B) (o : outcome A) =>
    match o with Returned a => k a | Thrown => Thrown end.

Section Runtime.

(** [dayjs( s )]: the instant in milliseconds since the epoch when the
    library can read [s], [None] for an invalid date.  The parser belongs
    to the library; the program only relies on these two observations. *)
Variable dayjs : string -> option Z.

(** [Number.prototype.toString] on a magnitude of at least 10^21, the one
    place where [toFixed] hands over to it (exponent notation). *)
Variable Number_toString : Q -> string.

Definition dayjs_isValid (s : string) : bool :=
  match dayjs s with Some _ => true | None => false end.

(** The formats registered with [ajv.addFormat]. *)
Definition format_ok (fmt : option string) (v : json) : bool :=
  match fmt, v with
  | Some f, JStr s => if String.eqb f "workout-timestamp" then dayjs_isValid s else true
  | _, _ => true
  end.

(** Validation of a value against a schema: [null] is accepted exactly
    when the schema is nullable; otherwise the type must match, a string
    must satisfy the format, and an object must own every required key
    and have every listed property that is present validate
    ([additionalProperties: true]: other keys are not looked at). *)
Fixpoint validate (s : schema) (v : json) : bool :=
  match s with
  | Schema type nullable format properties required =>
      match v with
      | JNull => nullable
      | _ =>
          has_type type v && format_ok format v &&
          match v with
          | JObj kvs =>
              forallb (fun k => match assoc k kvs with Some _ => true | None => false end)
                      required &&
              (fix props (ps : list (string * schema)) : bool :=
                 match ps with
                 | [] => true
                 | (k, sk) :: ps' =>
                     match assoc k kvs with
                     | Some x => validate sk x
                     | None => true
                     end && props ps'
                 end) properties
          | _ => true
          end
      end
  end.

Definition qtySchema : schema :=
  Schema TObject false None [("qty", Schema TNumber false None [] [])] ["qty"].

Definition workoutDataSchema : schema :=
  Schema TObject false None
    [ ("name", Schema TString false None [] []);
      ("start", Schema TString false (Some "workout-timestamp") [] []);
      ("end", Schema TString false (Some "workout-timestamp") [] []);
      ("isIndoor", Schema TBoolean true None [] []);
      ("activeEnergy", qtySchema);
      ("stepCadence", qtySchema);
      ("distance", qtySchema);
      ("speed", qtySchema);
      ("avgHeartRate", qtySchema);
      ("maxHeartRate", qtySchema) ]
    [ "name"; "start"; "end"; "activeEnergy"; "stepCadence"; "distance";
      "speed"; "avgHeartRate"; "maxHeartRate" ].

Definition isWorkoutData (v : json) : bool := validate workoutDataSchema v.

(** ** Number and duration rendering *)

Definition digits (n : Z) : string :=
  NilZero.string_of_uint (N.to_uint (Z.to_N n)).

(** [String( n )] for an integer. *)
Definition String_of_int (n : Z) : string :=
  if n <? 0 then "-" ++ digits (- n) else digits n.

Fixpoint zeros (n : nat) : string :=
  match n with O => "" | S n' => "0" ++ zeros n' end.

(** [x.toFixed( f )] (ECMA-262, Number.prototype.toFixed): the sign is
    taken off first, [n] is the integer nearest to [|x| * 10^f], the
    larger one on a tie, and its digits are split [f] places from the
    right after padding with zeros. *)
Definition toFixed (f : nat) (x : Q) : string :=
  let sign := if Qle_bool 0 x then "" else "-" in
  let ax := Qabs x in
  if Qle_bool (inject_Z (10 ^ 21)) ax then sign ++ Number_toString ax
  else
    let n := Qfloor (ax * inject_Z (10 ^ Z.of_nat f) + (1 # 2))%Q in
    let m := digits n in
    match f with
    | O => sign ++ m
    | _ =>
        let m' := zeros (S f - String.length m) ++ m in
        let k := String.length m' in
        sign ++ substring 0 (k - f) m' ++ "." ++ substring (k - f) f m'
    end.

(** A [dayjs.duration]: its length in milliseconds, [None] when the
    number given was not finite ([NaN] components).  Components are split
    off from the largest unit down, truncating toward zero; the fraction
    of a millisecond never reaches the seconds. *)
Definition duration : Type := option Z.

Definition MILLISECONDS_A_SECOND : Z := 1000.
Definition MILLISECONDS_A_MINUTE : Z := 60 * 1000.
Definition MILLISECONDS_A_HOUR : Z := 60 * 60 * 1000.
Definition MILLISECONDS_A_DAY : Z := 24 * 60 * 60 * 1000.
Definition MILLISECONDS_A_YEAR : Z := MILLISECONDS_A_DAY * 365.
Definition MILLISECONDS_A_MONTH : Z := MILLISECONDS_A_YEAR / 12.

Definition below_days (ms : Z) : Z :=
  Z.rem (Z.rem (Z.rem ms MILLISECONDS_A_YEAR) MILLISECONDS_A_MONTH) MILLISECONDS_A_DAY.

Definition hours (ms : Z) : Z := Z.quot (below_days ms) MILLISECONDS_A_HOUR.

Definition minutes (ms : Z) : Z :=
  Z.quot (Z.rem (below_days ms) MILLISECONDS_A_HOUR) MILLISECONDS_A_MINUTE.

Definition seconds (ms : Z) : Z :=
  Z.quot (Z.rem (Z.rem (below_days ms) MILLISECONDS_A_HOUR) MILLISECONDS_A_MINUTE)
         MILLISECONDS_A_SECOND.

Definition Qtrunc (q : Q) : Z := if Qle_bool 0 q then Qfloor q else Qceiling q.

Definition dayjs_duration (ms : option Q) : duration :=
  match ms with Some q => Some (Qtrunc q) | None => None end.

(** [padStart( n, 2, '0' )] as the duration plugin pads a component. *)
Definition pad2 (n : Z) : string :=
  let s := String_of_int n in
  if (2 <=? String.length s)%nat then s else "0" ++ s.

Definition format_HHmmss (d : duration) : string :=
  match d with
  | Some ms => pad2 (hours ms) ++ ":" ++ pad2 (minutes ms) ++ ":" ++ pad2 (seconds ms)
  | None => "NaN:NaN:NaN"
  end.

Definition format_mmss (d : duration) : string :=
  match d with
  | Some ms => pad2 (minutes ms) ++ ":" ++ pad2 (seconds ms)
  | None => "NaN:NaN"
  end.

(** Get the string representation of a duration as [hh:]mm:ss. *)
Definition getDurationString (aDuration : duration) : string :=
  match aDuration with
  | Some ms => if 1 <=? hours ms then format_HHmmss aDuration else format_mmss aDuration
  | None => format_mmss aDuration
  end.

(** ** CalendarWorkoutEvent *)

(** Workout names that we want to push to a calendar: the own keys of the
    object literal [allowedWorkoutNames]. *)
Definition allowedWorkoutNames : list string :=
  [ "Walking"; "Running"; "Elliptical"; "Hiking";
    "Indoor Walk"; "Outdoor Walk"; "Outdoor Run"; "Indoor Run" ].

(** The property names every object literal inherits from
    [Object.prototype]. *)
Definition Object_prototype_keys : list string :=
  [ "constructor"; "hasOwnProperty"; "isPrototypeOf"; "propertyIsEnumerable";
    "toLocaleString"; "toString"; "valueOf"; "__proto__";
    "__defineGetter__"; "__defineSetter__"; "__lookupGetter__"; "__lookupSetter__" ].

Definition mem (k : string) (ks : list string) : bool :=
  existsb (String.eqb k) ks.

(** [k in o] for an object literal with own keys [own]: the [in] operator
    also finds what is inherited along the prototype chain. *)
Definition js_in (k : string) (own : list string) : bool :=
  mem k own || mem k Object_prototype_keys.

Record CalendarWorkoutEvent : Type := mkEvent {
  ev_start : option json;
  ev_name : string;
  ev_body : string
}.

Definition getName (e : CalendarWorkoutEvent) : string := ev_name e.
Definition getBody (e : CalendarWorkoutEvent) : string := ev_body e.

(** Calculate the calendar event name. *)
Definition calcName (aWorkout : json) : string :=
  let isIndoor := js_get "isIndoor" aWorkout in
  match js_get "name" aWorkout with
  | Some (JStr n) =>
      if String.eqb n "Walking" then
        if js_truthy isIndoor then "Cardio - treadmill" else "Cardio - walk"
      else if String.eqb n "Running" then
        if js_truthy isIndoor then "Cardio - treadmill" else "Cardio - run"
      else if String.eqb n "Outdoor Walk" then "Cardio - walk"
      else if String.eqb n "Indoor Walk" then "Cardio - treadmill"
      else if String.eqb n "Outdoor Run" then "Cardio - run"
      else if String.eqb n "Indoor Run" then "Cardio - treadmill"
      else if String.eqb n "Elliptical" then "Cardio - elliptical"
      else if String.eqb n "Hiking" then "Hiking"
      else "DEFAULT"
  | _ => "DEFAULT"
  end.

(** [aWorkout.group.qty] as a number; reading [qty] off a missing group,
    or calling [toFixed] on something that is not a number, throws. *)
Definition qty (group : string) (aWorkout : json) : outcome Q :=
  match js_get group aWorkout with
  | Some g =>
      match js_get "qty" g with
      | Some (JNum q) => Returned q
      | _ => Thrown
      end
  | None => Thrown
  end.

(** [dayjs( aWorkout.end ).diff( aWorkout.start )] in milliseconds; an
    invalid date on either side makes it [NaN]. *)
Definition dayjs_diff (aEnd aStart : option json) : option Q :=
  match aEnd, aStart with
  | Some (JStr e), Some (JStr s) =>
      match dayjs e, dayjs s with
      | Some te, Some ts => Some (inject_Z (te - ts))
      | _, _ => None
      end
  | _, _ => None
  end.

(** [1 / speed * 60 * 60 * 1000]; the quotient by zero is not finite.
    The arithmetic is exact here; in doubles the product can fall just
    below a whole second (speed 9: 399999.99999999994). *)
Definition pace_ms (speed : Q) : option Q :=
  if Qeq_bool speed 0 then None
  else Some (1 / speed * inject_Z 60 * inject_Z 60 * inject_Z 1000)%Q.

Definition LF : string := String (ascii_of_nat 10) "".

(** Calculate the calendar event body. *)
Definition calcBody (aWorkout : json) : outcome string :=
  let ret := "" in
  let ret := ret ++ getDurationString
                      (dayjs_duration (dayjs_diff (js_get "end" aWorkout)
                                                  (js_get "start" aWorkout))) ++ LF in
  activeEnergy ← qty "activeEnergy" aWorkout;
  let ret := ret ++ toFixed 0 activeEnergy ++ " calories" ++ LF in
  ret ←
    if strict_eq_string (js_get "name" aWorkout) "Elliptical" then
      stepCadence ← qty "stepCadence" aWorkout;
      let ret := ret ++ LF in
      Returned (ret ++ "Cadence: " ++ toFixed 0 stepCadence ++ " spm" ++ LF)
    else
      distance ← qty "distance" aWorkout;
      let ret := ret ++ toFixed 2 distance ++ " miles" ++ LF in
      let ret := ret ++ LF in
      speed ← qty "speed" aWorkout;
      Returned (ret ++ "Pace: " ++ getDurationString (dayjs_duration (pace_ms speed)) ++ LF);
  avgHeartRate ← qty "avgHeartRate" aWorkout;
  maxHeartRate ← qty "maxHeartRate" aWorkout;
  Returned (ret ++ "HR: " ++ toFixed 0 avgHeartRate ++ " - " ++ toFixed 0 maxHeartRate
                ++ " bpm" ++ LF).

(** The private constructor. *)
Definition new_CalendarWorkoutEvent (aWorkout : json) : outcome CalendarWorkoutEvent :=
  let name := calcName aWorkout in
  body ← calcBody aWorkout;
  Returned (mkEvent (js_get "start" aWorkout) name body).

(** Create a CalendarWorkoutEvent from the given data; [Returned None] is
    the [null] result. *)
Definition createFromWorkoutData (aData : json) : outcome (option CalendarWorkoutEvent) :=
  if isWorkoutData aData then
    match js_get "name" aData with
    | Some (JStr n) =>
        if negb (js_in n allowedWorkoutNames) then Returned None
        else e ← new_CalendarWorkoutEvent aData; Returned (Some e)
    | _ => Thrown   (* not reached: validated data has a string name *)
    end
  else Returned None.

(** ** The store (sql/workouts.sql) and DataFile

    The table [workouts] in rowid order.  A row's [value] is the JSON text
    of a workout; it is kept here as the value that text parses back to.
    The generated column [start] is [json_extract(value, '$.start')] with
    TEXT affinity: NULL ([None]) when the key is missing or null, the
    string itself for a JSON string, SQLite's text of the value otherwise. *)


(** SQLite's text for an extracted JSON value that is neither null nor a
    string, and the text a bound parameter that is not a string is
    compared as. *)
Variable sqlite_text : json -> string.
Variable bound_text : json -> string.

Definition start_column (value : json) : option string :=
  match js_get "start" value with
  | None | Some JNull => None
  | Some (JStr s) => Some s
  | Some v => Some (sqlite_text v)
  end.

(** The parameter bound for [?]: [undefined] and [null] bind NULL, a
    string binds itself.  (What the driver makes of an object or an array
    is left to [bound_text]; no statement below relies on it.) *)
Definition bound_start (p : option json) : option string :=
  match p with
  | None | Some JNull => None
  | Some (JStr s) => Some s
  | Some v => Some (bound_text v)
  end.

(** [start = ?]: never true against NULL, text equality otherwise. *)
Definition start_eq (row : json) (p : option string) : bool :=
  match start_column row, p with
  | Some c, Some b => String.eqb c b
  | _, _ => false
  end.

(** The count query of [mergeData]: the number of rows of [workouts]
    whose [start] equals the bound parameter. *)
Definition count_start (db : table) (p : option string) : nat :=
  length (filter (fun row => start_eq row p = true) db).

(** [aWorkout.start]: reading a property of [null] throws. *)
Definition read_start (aWorkout : json) : outcome (option json) :=
  match aWorkout with
  | JNull => Thrown
  | _ => Returned (js_get "start" aWorkout)
  end.

(** Whether the callback handed to [mergeData] throws on a workout. *)
Variable aOnNewWorkout_throws : json -> bool.

(** Where one element's async body stands: suspended before the count
    query, before the insert, before the insert statement's [finalize]
    (after which the callback runs), or settled. *)
Inductive result :=
| Seen            (* count was not 0: fulfilled without inserting *)
| New             (* inserted, callback returned: fulfilled *)
| CheckFailed     (* the count query, or reading [start], raised *)
| InsertFailed    (* preparing or running the insert raised: no row *)
| FinalizeFailed  (* the row is written, finalize raised: no callback *)
| CallbackThrew.  (* the row is written, the callback was called and threw *)

Inductive stage :=
| AwaitCount
| AwaitInsert
| AwaitFinalize
| Settled (r : result).

Record mstate : Type := mkState {
  rows : table;
  tasks : list (json * stage);
  calls : list nat          (* indices of the elements the callback was called on *)
}.

Definition mergeData_start (db : table) (workouts : list json) : mstate :=
  mkState db ((fun w => (w, AwaitCount)) <$> workouts) [].

Definition set_stage (s : mstate) (i : nat) (w : json) (st : stage) : mstate :=
  mkState (rows s) (<[i := (w, st)]> (tasks s)) (calls s).

(** One resumption of element [i]; [ok] tells whether the store call it
    was waiting on succeeded.  [None]: the element is settled (or there is
    no such element) and has nothing left to run. *)
Definition step (s : mstate) (i : nat) (ok : bool) : option mstate :=
  match tasks s !! i with
  | Some (w, AwaitCount) =>
      if ok then
        match read_start w with
        | Returned p =>
            if (count_start (rows s) (bound_start p) =? 0)%nat
            then Some (set_stage s i w AwaitInsert)
            else Some (set_stage s i w (Settled Seen))
        | Thrown => Some (set_stage s i w (Settled CheckFailed))
        end
      else Some (set_stage s i w (Settled CheckFailed))
  | Some (w, AwaitInsert) =>
      if ok then
        Some (mkState (rows s ++ [w])%list (<[i := (w, AwaitFinalize)]> (tasks s)) (calls s))
      else Some (set_stage s i w (Settled InsertFailed))
  | Some (w, AwaitFinalize) =>
      if ok then
        Some (mkState (rows s)
                      (<[i := (w, Settled (if aOnNewWorkout_throws w then CallbackThrew else New))]>
                         (tasks s))
                      (calls s ++ [i])%list)
      else Some (set_stage s i w (Settled FinalizeFailed))
  | _ => None
  end.

(** The states a call of [mergeData] can pass through, for every order in
    which the suspended bodies are resumed and every pattern of store
    errors. *)
Inductive reach : mstate -> mstate -> Prop :=
| reach_refl s : reach s s
| reach_step s i ok s' s'' : reach s s' -> step s' i ok = Some s'' -> reach s s''.

Definition is_settled (t : json * stage) : bool :=
  match snd t with Settled _ => true | _ => false end.

(** [Promise.allSettled] resolves once every element has settled; it
    never rejects. *)
Definition all_settled (s : mstate) : bool := forallb is_settled (tasks s).

(** Merge aData with the current data in the store: [mergeData db aData s]
    when the call, started on table [db], can resolve in state [s]. *)
Definition mergeData (db : table) (aData : list json) (s : mstate) : Prop :=
  reach (mergeData_start db aData) s /\ all_settled s = true.

(** Resuming the elements in the order of a given schedule; an entry for
    an element with nothing to run is skipped. *)
Fixpoint run (s : mstate) (sched : list (nat * bool)) : mstate :=
  match sched with
  | [] => s
  | (i, ok) :: rest =>
      match step s i ok with
      | Some s' => run s' rest
      | None => run s rest
      end
  end.

(** Get an array of CalendarWorkoutEvent for all workouts in the store,
    as it runs when preparing, stepping through and finalizing the
    statement succeed (a rejection of one of them rejects the call). *)
Fixpoint getCalendarWorkoutEvents (db : table) : outcome (list CalendarWorkoutEvent) :=
  match db with
  | [] => Returned []
  | aRow :: rest =>
      workoutEvent ← createFromWorkoutData aRow;
      ret ← getCalendarWorkoutEvents rest;
      Returned (match workoutEvent with Some e => e :: ret | None => ret end)
  end.

End Runtime.

(** ** The required shape, in the words of the specification

    A string name, start and end strings that read as timestamps, and the
    six quantity groups each with a numeric [qty]. *)

Definition has_string (k : string) (v : json) : bool :=
  match js_get k v with Some (JStr _) => true | _ => false end.

Definition has_timestamp (dayjs : string -> option Z) (k : string) (v : json) : bool :=
  match js_get k v with Some (JStr s) => dayjs_isValid dayjs s | _ => false end.

Definition has_qty (k : string) (v : json) : bool :=
  match js_get k v with
  | Some g => match js_get "qty" g with Some (JNum _) => true | _ => false end
  | None => false
  end.

Definition required_shape (dayjs : string -> option Z) (v : json) : bool :=
  has_string "name" v && has_timestamp dayjs "start" v && has_timestamp dayjs "end" v &&
  has_qty "activeEnergy" v && has_qty "stepCadence" v && has_qty "distance" v &&
  has_qty "speed" v && has_qty "avgHeartRate" v && has_qty "maxHeartRate" v.

(** The optional flag: absent, [null], or a boolean. *)
Definition indoor_ok (v : json) : bool :=
  match js_get "isIndoor" v with
  | None | Some JNull | Some (JBool _) => true
  | _ => false
  end.

(** The title mapping as the specification lists it. *)
Definition spec_title (name : string) (indoor : bool) : string :=
  if String.eqb name "Walking" then (if indoor then "Cardio - treadmill" else "Cardio - walk")
  else if String.eqb name "Running" then (if indoor then "Cardio - treadmill" else "Cardio - run")
  else if String.eqb name "Indoor Walk" then "Cardio - treadmill"
  else if String.eqb name "Outdoor Walk" then "Cardio - walk"
  else if String.eqb name "Indoor Run" then "Cardio - treadmill"
  else if String.eqb name "Outdoor Run" then "Cardio - run"
  else if String.eqb name "Elliptical" then "Cardio - elliptical"
  else "Hiking".

Definition spec_titles : list string :=
  [ "Cardio - treadmill"; "Cardio - walk"; "Cardio - run"; "Cardio - elliptical"; "Hiking" ].

(** ** Concrete readers used in the examples *)

Definition digit_val (c : ascii) : option Z :=
  let n := Z.of_nat (nat_of_ascii c) in
  if (48 <=? n) && (n <=? 57) then Some (n - 48) else None.

Fixpoint number_of (cs : list ascii) (acc : Z) : option Z :=
  match cs with
  | [] => Some acc
  | c :: rest =>
      match digit_val c with
      | Some d => number_of rest (acc * 10 + d)
      | None => None
      end
  end.

Definition field (s : string) (from len : nat) : option Z :=
  let sub := substring from len s in
  if (String.length sub =? len)%nat then number_of (list_ascii_of_string sub) 0 else None.

(** Days from 1970-01-01 to a date of the proleptic Gregorian calendar. *)
Definition days_from_civil (y m d : Z) : Z :=
  let y' := if m <=? 2 then y - 1 else y in
  let era := y' / 400 in
  let yoe := y' - era * 400 in
  let doy := (153 * (if 2 <? m then m - 3 else m + 9) + 2) / 5 + d - 1 in
  let doe := yoe * 365 + yoe / 4 - yoe / 100 + doy in
  era * 146097 + doe - 719468.

(** A reader of timestamps written [YYYY-MM-DDTHH:mm:ss] with a
    four-digit year from 0100 on and fields in range, taken in a zone
    without clock changes; on such strings [dayjs] reads the same
    instant up to the zone's constant offset, which [diff] cancels.  It
    is not [dayjs]: other formats, which [dayjs] reads, it turns away. *)
Definition iso_reader (s : string) : option Z :=
  if negb ((String.length s =? 19)%nat && String.eqb (substring 4 1 s) "-"
           && String.eqb (substring 7 1 s) "-" && String.eqb (substring 10 1 s) "T"
           && String.eqb (substring 13 1 s) ":" && String.eqb (substring 16 1 s) ":")
  then None
  else
    match field s 0 4, field s 5 2, field s 8 2, field s 11 2, field s 14 2, field s 17 2 with
    | Some y, Some m, Some d, Some hh, Some mm, Some ss =>
        if (1 <=? m) && (m <=? 12) && (1 <=? d) && (d <=? 31)
           && (hh <=? 23) && (mm <=? 59) && (ss <=? 59)
        then Some (((days_from_civil y m d * 24 + hh) * 60 + mm) * 60 * 1000 + ss * 1000)
        else None
    | _, _, _, _, _, _ => None
    end.

(** No example reaches a magnitude of 10^21 or a start that is not a
    string; these stand in for the renderings used there. *)
Definition no_text (_ : Q) : string := "".
Definition no_sql_text (_ : json) : string := "".
Definition never_throws (_ : json) : bool := false.

(** The workout of the test suites, with a given name, start and end and
    further properties put in front. *)
Definition sampleData (name start_ end_ : string) (extra : list (string * json)) : json :=
  JObj (extra ++
        [ ("name", JStr name); ("start", JStr start_); ("end", JStr end_);
          ("activeEnergy", JObj [("qty", JNum 100)]);
          ("stepCadence", JObj [("qty", JNum 30)]);
          ("distance", JObj [("qty", JNum 1)]);
          ("speed", JObj [("qty", JNum 4)]);
          ("avgHeartRate", JObj [("qty", JNum 120)]);
          ("maxHeartRate", JObj [("qty", JNum 140)]) ])%list.


(** ** Reading a state of [mergeData] *)

(** The start of a record when it is a string: the deduplication key. *)
Definition start_string (w : json) : option string :=
  match js_get "start" w with
  | Some (JStr k) => Some k
  | _ => None
  end.

(** Stages at which the element's row is in the table. *)
Definition has_row (st : stage) : bool :=
  match st with
  | AwaitFinalize | Settled New | Settled FinalizeFailed | Settled CallbackThrew => true
  | _ => false
  end.

(** Stages at which the callback has been called on the element. *)
Definition called (st : stage) : bool :=
  match st with
  | Settled New | Settled CallbackThrew => true
  | _ => false
  end.

(** Stages reached through a store error. *)
Definition store_failed (st : stage) : bool :=
  match st with
  | Settled CheckFailed | Settled InsertFailed | Settled FinalizeFailed => true
  | _ => false
  end.

(** Stages reached after the count query answered 0. *)
Definition counted_zero (st : stage) : bool :=
  match st with
  | AwaitCount | Settled Seen | Settled CheckFailed => false
  | _ => true
  end.

(** The workouts whose rows the call has written so far. *)
Definition inserted (ts : list (json * stage)) : list json :=
  fst <$> filter (fun t => has_row (snd t) = true) ts.

(** Resumptions an element still has ahead of it, at most. *)
Definition ahead (t : json * stage) : nat :=
  match snd t with
  | AwaitCount => 3
  | AwaitInsert => 2
  | AwaitFinalize => 1
  | Settled _ => 0
  end.

Definition remaining (s : mstate) : nat := sum_list (ahead <$> tasks s).

(** The event a record gives when constructed directly. *)
Definition direct_event (dayjs : string -> option Z) (nts : Q -> string) (w : json)
  : option CalendarWorkoutEvent :=
  match createFromWorkoutData dayjs nts w with
  | Returned (Some e) => Some e
  | _ => None
  end.

(** What one resumption does to an element: its stage before and after,
    the table after, and whether the callback was called. *)
Inductive moves (sqlite_text bound_text : json -> string) (throws : json -> bool)
          (db : table) (w : json) : stage -> stage -> table -> bool -> Prop :=
| moves_check_failed :
    moves sqlite_text bound_text throws db w AwaitCount (Settled CheckFailed) db false
| moves_absent p :
    read_start w = Returned p ->
    count_start sqlite_text db (bound_start bound_text p) = 0%nat ->
    moves sqlite_text bound_text throws db w AwaitCount AwaitInsert db false
| moves_present p :
    read_start w = Returned p ->
    count_start sqlite_text db (bound_start bound_text p) <> 0%nat ->
    moves sqlite_text bound_text throws db w AwaitCount (Settled Seen) db false
| moves_insert :
    moves sqlite_text bound_text throws db w AwaitInsert AwaitFinalize (db ++ [w])%list false
| moves_insert_failed :
    moves sqlite_text bound_text throws db w AwaitInsert (Settled InsertFailed) db false
| moves_callback :
    moves sqlite_text bound_text throws db w AwaitFinalize
          (Settled (if throws w then CallbackThrew else New)) db true
| moves_finalize_failed :
    moves sqlite_text bound_text throws db w AwaitFinalize (Settled FinalizeFailed) db false.

(** A batch whose records all have a string start, no two the same. *)
Definition distinct_starts (ws : list json) : Prop :=
  Forall (fun w => is_Some (start_string w)) ws /\ NoDup (start_string <$> ws).

(** No element of the call was stopped by a store error. *)
Definition no_store_error (s : mstate) : Prop :=
  Forall (fun t => store_failed (snd t) = false) (tasks s).

(** The order in which Node resumes the bodies when no store call fails:
    every count query is answered before the first insert is run, and
    every insert before the first finalize. *)
Definition all_ok (n : nat) : list (nat * bool) :=
  let round := (fun i => (i, true)) <$> seq 0 n in
  (round ++ round ++ round)%list.

(** A call of [mergeData] run to its end in that order, with a callback
    that does not throw. *)
Definition merged (db : table) (ws : list json) : mstate :=
  run no_sql_text no_sql_text never_throws (mergeData_start db ws) (all_ok (length ws)).

Definition walkA : json :=
  sampleData "Walking" "2021-09-26T20:00:00" "2021-09-26T20:15:00" [].

Definition hikeB : json :=
  sampleData "Hiking" "2021-09-27T08:00:00" "2021-09-27T09:30:00" [].

(** [walkA] with another name: the same start string. *)
Definition runA : json :=
  sampleData "Running" "2021-09-26T20:00:00" "2021-09-26T20:15:00" [].

(** ** WorkoutsToIcalApp and the calendar

    The calendar of ical-generator is taken as the list of its events, in
    the order [createEvent] added them. *)

Record ICalEvent : Type := mkICalEvent {
  ical_start : option Z;      (* the day, when the start reads as a date *)
  ical_allDay : bool;
  ical_summary : string;
  ical_description : string
}.

(** Add a CalendarWorkoutEvent to the given calendar.  [startOf_day] is
    dayjs's [startOf( 'day' )] on an instant; the events built by
    [createFromWorkoutData] carry a string start. *)
Definition ical_of (dayjs : string -> option Z) (startOf_day : Z -> Z)
           (e : CalendarWorkoutEvent) : ICalEvent :=
  mkICalEvent
    (match ev_start e with
     | Some (JStr s) => startOf_day <$> dayjs s
     | _ => None
     end)
    true (getName e) (getBody e).

Definition addToCalendar (dayjs : string -> option Z) (startOf_day : Z -> Z)
           (e : CalendarWorkoutEvent) (aCalendar : list ICalEvent) : list ICalEvent :=
  (aCalendar ++ [ical_of dayjs startOf_day e])%list.

(** Handle a newly seen workout. *)
Definition onNewWorkout (dayjs : string -> option Z) (nts : Q -> string)
           (startOf_day : Z -> Z) (aWorkout : json) (aCalendar : list ICalEvent)
  : outcome (list ICalEvent) :=
  calendarWorkoutEvent ← createFromWorkoutData dayjs nts aWorkout;
  match calendarWorkoutEvent with
  | Some e => Returned (addToCalendar dayjs startOf_day e aCalendar)
  | None => Returned aCalendar
  end.

(** The first statements of [start]: the events of the store are added
    to the calendar, in row order. *)
Definition start_calendar (dayjs : string -> option Z) (nts : Q -> string)
           (startOf_day : Z -> Z) (db : table) (aCalendar : list ICalEvent)
  : outcome (list ICalEvent) :=
  calendarWorkoutEvents ← getCalendarWorkoutEvents dayjs nts db;
  Returned (foldl (fun cal aEvent => addToCalendar dayjs startOf_day aEvent cal)
                  aCalendar calendarWorkoutEvents).

(** A header or query-string value: a string, or something else (a list
    of strings, a nested object), which is never [===] to a string. *)
Inductive param :=
| PStr (s : string)
| POther.

Record IWorkoutsToIcalAppConfig : Type := mkConfig {
  headerSecretKey : string;
  headerSecretVal : string;
  querystringSecretKey : string;
  querystringSecretVal : string
}.

(** [v !== lit] for a value that is there. *)
Definition strict_ne (v : param) (lit : string) : bool :=
  match v with
  | PStr s => negb (String.eqb s lit)
  | POther => true
  end.

(** Check that the posted headers are valid.  A key that is not an own
    property reads as [undefined], or as a function inherited from the
    prototype, which is not the secret either. *)
Definition validatePostedWorkoutDataHeaders (config : IWorkoutsToIcalAppConfig)
           (headers : list (string * param)) : bool :=
  match assoc (headerSecretKey config) headers with
  | None => false
  | Some v => if strict_ne v (headerSecretVal config) then false else true
  end.

(** What a handler answers: a status with an empty body, or the calendar
    served. *)
Inductive reply :=
| Status (code : Z)
| Served (aCalendar : list ICalEvent).

(** Handle GET for /workoutCalendar. *)
Definition onGetWorkoutCalendar (config : IWorkoutsToIcalAppConfig)
           (query : list (string * param)) (aCalendar : list ICalEvent) : reply :=
  match assoc (querystringSecretKey config) query with
  | None => Status 403
  | Some v => if strict_ne v (querystringSecretVal config) then Status 403
              else Served aCalendar
  end.

(** [v.k] where reading a property of [undefined] or [null] throws. *)
Definition js_prop (k : string) (v : option json) : outcome (option json) :=
  match v with
  | None | Some JNull => Thrown
  | Some x => Returned (js_get k x)
  end.

Definition isArray (v : option json) : bool :=
  match v with Some (JArr _) => true | _ => false end.

Definition is_undefined (v : option json) : bool :=
  match v with None => true | Some _ => false end.

(** Check that the posted fitness data has the expected structure. *)
Definition validatePostedWorkoutDataBody (aBody : option json) : outcome bool :=
  if negb (js_truthy aBody) then Returned false
  else
    data ← js_prop "data" aBody;
    if negb (js_truthy data) then Returned false
    else
      workouts ← js_prop "workouts" data;
      if is_undefined workouts then Returned false
      else if negb (isArray workouts) then Returned false
      else Returned true.

(** [aReq.body.data.workouts] as the list handed to [mergeData]. *)
Definition posted_workouts (body : json) : option (list json) :=
  match js_get "data" body with
  | Some data => match js_get "workouts" data with
                 | Some (JArr ws) => Some ws
                 | _ => None
                 end
  | None => None
  end.

(** The callback of [onPostWorkoutData] and the calendar it leaves when
    called on the elements [calls] of the batch, in that order. *)
Definition onNewWorkout_throws (dayjs : string -> option Z) (nts : Q -> string)
           (startOf_day : Z -> Z) (aWorkout : json) : bool :=
  match onNewWorkout dayjs nts startOf_day aWorkout [] with
  | Returned _ => false
  | Thrown => true
  end.

Definition calendar_after (dayjs : string -> option Z) (nts : Q -> string)
           (startOf_day : Z -> Z) (ws : list json) (calls : list nat)
           (aCalendar : list ICalEvent) : list ICalEvent :=
  foldl (fun cal i =>
           match ws !! i with
           | Some w => match onNewWorkout dayjs nts startOf_day w cal with
                       | Returned cal' => cal'
                       | Thrown => cal
                       end
           | None => cal
           end) aCalendar calls.

(** What a request works on: the store, the calendar, and the body last
    written to latest-posted-body.json. *)
Record app : Type := mkApp {
  dataFile : table;
  calendar : list ICalEvent;
  latest_posted_body : option json
}.

(** Handle POST to /workoutData: the status answered and the state left. *)
Inductive onPostWorkoutData (dayjs : string -> option Z) (nts : Q -> string)
          (startOf_day : Z -> Z) (sqlite_text bound_text : json -> string)
          (config : IWorkoutsToIcalAppConfig)
          (headers : list (string * param)) (body : json) (a : app) : Z -> app -> Prop :=
| post_forbidden :
    validatePostedWorkoutDataHeaders config headers = false ->
    onPostWorkoutData dayjs nts startOf_day sqlite_text bound_text config headers body a
                      403 a
| post_bad_request :
    validatePostedWorkoutDataHeaders config headers = true ->
    validatePostedWorkoutDataBody (Some body) = Returned false ->
    onPostWorkoutData dayjs nts startOf_day sqlite_text bound_text config headers body a
                      400 (mkApp (dataFile a) (calendar a) (Some body))
| post_ok ws s :
    validatePostedWorkoutDataHeaders config headers = true ->
    validatePostedWorkoutDataBody (Some body) = Returned true ->
    posted_workouts body = Some ws ->
    mergeData sqlite_text bound_text (onNewWorkout_throws dayjs nts startOf_day)
              (dataFile a) ws s ->
    onPostWorkoutData dayjs nts startOf_day sqlite_text bound_text config headers body a
                      200 (mkApp (rows s)
                                 (calendar_after dayjs nts startOf_day ws (calls s) (calendar a))
                                 (Some body)).

(** ** Reading texts *)

Fixpoint contains (needle hay : string) : bool :=
  String.prefix needle hay ||
  match hay with
  | EmptyString => false
  | String _ rest => contains needle rest
  end.

(** The property names of [workoutDataSchema]. *)
Definition schema_keys : list string :=
  [ "name"; "start"; "end"; "isIndoor"; "activeEnergy"; "stepCadence"; "distance";
    "speed"; "avgHeartRate"; "maxHeartRate" ].

(** A zone whose days start at the multiples of 24 hours. *)
Definition utc_startOf_day (t : Z) : Z := t - t mod MILLISECONDS_A_DAY.

(** A workout without a start, and one recorded standing still. *)
Definition noStart : json := JObj [("name", JStr "Walking")].

Definition standstill : json :=
  JObj [ ("name", JStr "Walking"); ("start", JStr "2021-09-26T20:00:00");
         ("end", JStr "2021-09-26T20:15:00");
         ("activeEnergy", JObj [("qty", JNum 10)]);
         ("stepCadence", JObj [("qty", JNum 0)]);
         ("distance", JObj [("qty", JNum 0)]);
         ("speed", JObj [("qty", JNum 0)]);
         ("avgHeartRate", JObj [("qty", JNum 70)]);
         ("maxHeartRate", JObj [("qty", JNum 80)]) ].

(** A posted body with the given workouts, a configuration, and a call
    of [mergeData] made by the app and run to its end. *)
Definition posted (ws : list json) : json :=
  JObj [("data", JObj [("workouts", JArr ws)])].

Definition sampleConfig : IWorkoutsToIcalAppConfig :=
  mkConfig "x-secret" "s3cret" "secret" "s3cret".

Definition merged_by_app (db : table) (ws : list json) : mstate :=
  run no_sql_text no_sql_text (onNewWorkout_throws iso_reader no_text utc_startOf_day)
      (mergeData_start db ws) (all_ok (length ws)).

(** ** Reading a run of [mergeData] *)

(** The outcomes handed to element [i] by a schedule, in the order of its
    resumptions: the first answers its count query, the second its
    insert, the third the insert statement's finalize. *)
Definition resumptions_of (i : nat) (sched : list (nat * bool)) : list bool :=
  snd <$> filter (fun e => fst e = i) sched.

(** The start column of a table, NULLs left out. *)
Definition stored_starts (sqlite_text : json -> string) (db : table) : list string :=
  omap (start_column sqlite_text) db.

(** A record is new to a table when its start is a string that is the
    start of no row. *)
Definition is_new (sqlite_text : json -> string) (db : table) (w : json) : bool :=
  match start_string w with
  | Some k => negb (mem k (stored_starts sqlite_text db))
  | None => false
  end.

(** The calls of the callback an element still has ahead of it, from its
    stage and the outcomes it will be handed. *)
Definition calls_ahead (st : stage) (oks : list bool) : nat :=
  match st, oks with
  | AwaitInsert, true :: true :: _ => 1
  | AwaitFinalize, true :: _ => 1
  | _, _ => 0
  end.


(** ** The validator *)

Ltac evaluate_tasks :=
  match goal with
  | |- Forall _ ?l => let v := eval vm_compute in l in change l with v
  end.

Ltac settle_bool :=
  cbn; rewrite ?andb_false_r, ?andb_true_r; cbn; try reflexivity.

Ltac case_value o :=
  destruct o as [[| ? | ? | ? | ? | ?]|]; settle_bool.

Ltac case_qty o :=
  case_value o;
  match goal with
  | |- context [assoc "qty" ?kv] => case_value (assoc "qty" kv)
  | _ => idtac
  end.

Lemma isWorkoutData_shape dayjs (v : json) :
  isWorkoutData dayjs v = required_shape dayjs v && indoor_ok v.
Proof.
  destruct v; try reflexivity.
  unfold isWorkoutData, required_shape, indoor_ok, has_string, has_timestamp, has_qty.
  cbn.
  generalize (assoc "name" kvs) (assoc "start" kvs) (assoc "end" kvs)
    (assoc "isIndoor" kvs) (assoc "activeEnergy" kvs) (assoc "stepCadence" kvs)
    (assoc "distance" kvs) (assoc "speed" kvs) (assoc "avgHeartRate" kvs)
    (assoc "maxHeartRate" kvs).
  intros o1 o2 o3 o4 o5 o6 o7 o8 o9 o10.
  case_value o1.
  case_value o2. destruct (dayjs_isValid dayjs s0); settle_bool.
  case_value o3. destruct (dayjs_isValid dayjs s1); settle_bool.
  all: case_qty o5.
  all: case_qty o6.
  all: case_qty o7.
  all: case_qty o8.
  all: case_qty o9.
  all: case_qty o10.
  all: case_value o4.
Qed.

Lemma has_qty_returns (k : string) (v : json) :
  has_qty k v = true -> exists q, qty k v = Returned q.
Proof.
  unfold has_qty, qty.
  destruct (js_get k v) as [g|]; [|discriminate].
  destruct (js_get "qty" g) as [[]|]; try discriminate.
  intros _. eauto.
Qed.

Lemma required_shape_fields dayjs (v : json) :
  required_shape dayjs v = true ->
  has_string "name" v = true /\
  Forall (fun k => has_qty k v = true)
    ["activeEnergy"; "stepCadence"; "distance"; "speed"; "avgHeartRate"; "maxHeartRate"].
Proof.
  unfold required_shape. intros H.
  repeat (apply andb_prop in H; destruct H as [H ?]).
  split; [assumption|]. repeat constructor; assumption.
Qed.

(** On validated data the body is computed without an exception. *)
Lemma calcBody_returns dayjs nts (v : json) :
  isWorkoutData dayjs v = true -> exists b, calcBody dayjs nts v = Returned b.
Proof.
  rewrite isWorkoutData_shape. intros H. apply andb_prop in H as [H _].
  apply required_shape_fields in H as [_ Hq].
  repeat match type of Hq with
         | Forall _ (_ :: _) => apply Forall_cons in Hq as [?%has_qty_returns Hq]
         end.
  repeat match goal with H : exists q, _ |- _ => destruct H as [? H] end.
  unfold calcBody.
  repeat match goal with H : qty _ _ = Returned _ |- _ => rewrite H; clear H end.
  cbn.
  destruct (strict_eq_string _ _); cbn; eauto.
Qed.

Lemma isWorkoutData_name dayjs (v : json) :
  isWorkoutData dayjs v = true -> exists n, js_get "name" v = Some (JStr n).
Proof.
  rewrite isWorkoutData_shape. intros H. apply andb_prop in H as [H _].
  apply required_shape_fields in H as [H _]. unfold has_string in H.
  destruct (js_get "name" v) as [[]|]; try discriminate. eauto.
Qed.

Lemma isWorkoutData_indoor dayjs (v : json) :
  isWorkoutData dayjs v = true -> indoor_ok v = true.
Proof. rewrite isWorkoutData_shape. intros H. apply andb_prop in H as [_ H]. exact H. Qed.

(** ** Event construction *)

(** A validated record whose name passes the [in] test becomes the event
    made of its start, [calcName] and [calcBody]. *)
Lemma create_passing dayjs nts (v : json) (n : string) :
  isWorkoutData dayjs v = true ->
  js_get "name" v = Some (JStr n) ->
  js_in n allowedWorkoutNames = true ->
  exists b, calcBody dayjs nts v = Returned b /\
            createFromWorkoutData dayjs nts v
            = Returned (Some (mkEvent (js_get "start" v) (calcName v) b)).
Proof.
  intros Hv Hn Hin. destruct (calcBody_returns dayjs nts v Hv) as [b Hb].
  exists b. split; [assumption|].
  unfold createFromWorkoutData, new_CalendarWorkoutEvent.
  rewrite Hv, Hn, Hin, Hb. reflexivity.
Qed.

Lemma allowed_cases (n : string) :
  In n allowedWorkoutNames ->
  n = "Walking" \/ n = "Running" \/ n = "Elliptical" \/ n = "Hiking" \/
  n = "Indoor Walk" \/ n = "Outdoor Walk" \/ n = "Outdoor Run" \/ n = "Indoor Run".
Proof. cbn. intuition auto. Qed.

Lemma allowed_js_in (n : string) : In n allowedWorkoutNames -> js_in n allowedWorkoutNames = true.
Proof.
  intros H. apply allowed_cases in H.
  repeat destruct H as [H|H]; subst; reflexivity.
Qed.

Lemma calcName_allowed (v : json) (n : string) :
  js_get "name" v = Some (JStr n) ->
  In n allowedWorkoutNames ->
  calcName v = spec_title n (js_truthy (js_get "isIndoor" v)).
Proof.
  intros Hn H. apply allowed_cases in H. unfold calcName. rewrite Hn.
  repeat destruct H as [H|H]; subst; reflexivity.
Qed.

Lemma spec_title_in (n : string) (b : bool) : In (spec_title n b) spec_titles.
Proof.
  unfold spec_title.
  repeat match goal with |- context [String.eqb ?a ?c] => destruct (String.eqb a c) end;
    try destruct b; cbn; auto 10.
Qed.

(** C3. For a validated record with one of the eight names the event is
    built and its title follows the fixed mapping: the legacy names
    "Walking" and "Running" go by the indoor flag, the other six by the
    name alone; the title is one of the five calendar names. *)
Theorem getName_fixed_mapping dayjs nts (v : json) (n : string) :
  isWorkoutData dayjs v = true ->
  js_get "name" v = Some (JStr n) ->
  In n allowedWorkoutNames ->
  exists e, createFromWorkoutData dayjs nts v = Returned (Some e) /\
            (forall b, js_get "isIndoor" v = Some (JBool b) \/
                       (n <> "Walking" /\ n <> "Running") ->
                       getName e = spec_title n b) /\
            In (getName e) spec_titles.
Proof.
  intros Hv Hn Hin.
  destruct (create_passing dayjs nts v n Hv Hn (allowed_js_in n Hin)) as (b & _ & Hc).
  eexists. split; [exact Hc|]. cbn [getName ev_name].
  rewrite (calcName_allowed v n Hn Hin). split; [|apply spec_title_in].
  intros b' [Hb|[H1 H2]].
  - rewrite Hb. reflexivity.
  - unfold spec_title.
    destruct (String.eqb_spec n "Walking"); [contradiction|].
    destruct (String.eqb_spec n "Running"); [contradiction|]. reflexivity.
Qed.

Lemma getName_fixed_mapping_witness :
  exists e,
    createFromWorkoutData iso_reader no_text
      (sampleData "Running" "2021-09-26T20:00:00" "2021-09-26T20:15:00"
                  [("isIndoor", JBool true)]) = Returned (Some e) /\
    (forall b, js_get "isIndoor"
                 (sampleData "Running" "2021-09-26T20:00:00" "2021-09-26T20:15:00"
                             [("isIndoor", JBool true)]) = Some (JBool b) \/
               ("Running" <> "Walking" /\ "Running" <> "Running") ->
               getName e = spec_title "Running" b) /\
    In (getName e) spec_titles.
Proof.
  apply (getName_fixed_mapping iso_reader no_text _ "Running").
  - vm_compute. reflexivity.
  - reflexivity.
  - cbn. auto.
Defined.

(** C10. A validated "Walking" record without an isIndoor property is
    titled "Cardio - walk", a validated "Running" record without one
    "Cardio - run". *)
Theorem legacy_absent_flag_is_outdoor dayjs nts (v : json) (n : string) :
  isWorkoutData dayjs v = true ->
  js_get "name" v = Some (JStr n) ->
  js_get "isIndoor" v = None ->
  (n = "Walking" ->
   exists e, createFromWorkoutData dayjs nts v = Returned (Some e) /\
             getName e = "Cardio - walk") /\
  (n = "Running" ->
   exists e, createFromWorkoutData dayjs nts v = Returned (Some e) /\
             getName e = "Cardio - run").
Proof.
  intros Hv Hn Hi. split; intros ->.
  - destruct (create_passing dayjs nts v _ Hv Hn eq_refl) as (b & _ & Hc).
    eexists. split; [exact Hc|]. cbn [getName ev_name]. unfold calcName.
    rewrite Hn, Hi. reflexivity.
  - destruct (create_passing dayjs nts v _ Hv Hn eq_refl) as (b & _ & Hc).
    eexists. split; [exact Hc|]. cbn [getName ev_name]. unfold calcName.
    rewrite Hn, Hi. reflexivity.
Qed.

Lemma legacy_absent_flag_is_outdoor_witness :
  ("Walking" = "Walking" ->
   exists e, createFromWorkoutData iso_reader no_text
               (sampleData "Walking" "2021-09-26T20:00:00" "2021-09-26T20:15:00" [])
             = Returned (Some e) /\ getName e = "Cardio - walk") /\
  ("Walking" = "Running" ->
   exists e, createFromWorkoutData iso_reader no_text
               (sampleData "Walking" "2021-09-26T20:00:00" "2021-09-26T20:15:00" [])
             = Returned (Some e) /\ getName e = "Cardio - run").
Proof.
  apply (legacy_absent_flag_is_outdoor iso_reader no_text _ "Walking").
  - vm_compute. reflexivity.
  - reflexivity.
  - reflexivity.
Defined.

Lemma createFromWorkoutData_invalid dayjs nts (v : json) :
  isWorkoutData dayjs v = false -> createFromWorkoutData dayjs nts v = Returned None.
Proof. intros H. unfold createFromWorkoutData. rewrite H. reflexivity. Qed.

(** Names that are neither own keys of the allow-list nor inherited from
    [Object.prototype] are turned away. *)
Lemma createFromWorkoutData_unlisted dayjs nts (v : json) (n : string) :
  js_get "name" v = Some (JStr n) ->
  js_in n allowedWorkoutNames = false ->
  createFromWorkoutData dayjs nts v = Returned None.
Proof.
  intros Hn Hin. unfold createFromWorkoutData.
  destruct (isWorkoutData dayjs v); [|reflexivity].
  rewrite Hn, Hin. reflexivity.
Qed.

(** C1. The record of the test suite renamed "toString": it passes the
    schema, "toString" is none of the eight names, and yet the [in] test
    lets it through, so an event titled "DEFAULT" is constructed. *)
Theorem inherited_name_gets_DEFAULT_title :
  let w := sampleData "toString" "2021-09-26T20:00:00" "2021-09-26T20:15:00" [] in
  isWorkoutData iso_reader w = true /\
  ~ In "toString" allowedWorkoutNames /\
  exists e, createFromWorkoutData iso_reader no_text w = Returned (Some e) /\
            getName e = "DEFAULT".
Proof.
  cbv zeta. split; [vm_compute; reflexivity|]. split.
  - cbn. intuition discriminate.
  - eexists. split; [vm_compute; reflexivity|]. reflexivity.
Qed.

(** C8, the counterexample: every required field is there and well
    formed, and a numeric isIndoor makes the validator answer false. *)
Lemma isWorkoutData_rejects_numeric_isIndoor :
  let w := sampleData "Walking" "2021-09-26T20:00:00" "2021-09-26T20:15:00"
                      [("isIndoor", JNum 5)] in
  required_shape iso_reader w = true /\ isWorkoutData iso_reader w = false.
Proof. split; vm_compute; reflexivity. Qed.

(** C8. The validator is a total function that answers true exactly for
    the values with a string name, start and end strings that read as
    timestamps, a numeric qty in each of the six groups, and an isIndoor
    that is absent, null or a boolean; other properties, of the record or
    of a group, do not change the answer. *)
Theorem isWorkoutData_accepts_iff dayjs (v : json) :
  (isWorkoutData dayjs v = true <->
   required_shape dayjs v = true /\ indoor_ok v = true) /\
  (isWorkoutData dayjs v = false <->
   required_shape dayjs v = false \/ indoor_ok v = false).
Proof.
  rewrite isWorkoutData_shape. split.
  - apply andb_true_iff.
  - apply andb_false_iff.
Qed.

(** C9, the counterexample: [null] is not a boolean, and the record
    carrying it as isIndoor validates and becomes an event. *)
Lemma null_isIndoor_accepted :
  let w := sampleData "Walking" "2021-09-26T20:00:00" "2021-09-26T20:15:00"
                      [("isIndoor", JNull)] in
  js_get "isIndoor" w = Some JNull /\
  isWorkoutData iso_reader w = true /\
  exists e, createFromWorkoutData iso_reader no_text w = Returned (Some e).
Proof.
  cbv zeta. split; [reflexivity|]. split; [vm_compute; reflexivity|].
  eexists. vm_compute. reflexivity.
Qed.

(** C9. A record with an isIndoor property that is neither a boolean nor
    null fails validation, whatever its other fields, and
    createFromWorkoutData returns null for it. *)
Theorem non_boolean_isIndoor_rejected dayjs nts (v x : json) :
  js_get "isIndoor" v = Some x ->
  (forall b, x <> JBool b) ->
  x <> JNull ->
  isWorkoutData dayjs v = false /\
  createFromWorkoutData dayjs nts v = Returned None.
Proof.
  intros Hx Hb Hnull.
  assert (H : isWorkoutData dayjs v = false).
  { rewrite isWorkoutData_shape. apply andb_false_iff. right.
    unfold indoor_ok. rewrite Hx.
    destruct x; try reflexivity; [contradiction | exfalso; eapply Hb; reflexivity]. }
  split; [exact H | apply createFromWorkoutData_invalid, H].
Qed.

Lemma non_boolean_isIndoor_rejected_witness :
  isWorkoutData iso_reader
    (sampleData "Walking" "2021-09-26T20:00:00" "2021-09-26T20:15:00"
                [("isIndoor", JNum 5)]) = false /\
  createFromWorkoutData iso_reader no_text
    (sampleData "Walking" "2021-09-26T20:00:00" "2021-09-26T20:15:00"
                [("isIndoor", JNum 5)]) = Returned None.
Proof.
  apply (non_boolean_isIndoor_rejected iso_reader no_text _ (JNum 5)).
  - reflexivity.
  - intros b; discriminate.
  - discriminate.
Defined.

(** ** The body *)

(** Below one day the hours component is the whole number of hours, and
    the text is mm:ss under one hour and HH:mm:ss from one hour on. *)
Lemma getDurationString_below_a_day (ms : Z) :
  0 <= ms < MILLISECONDS_A_DAY ->
  getDurationString (Some ms)
  = if ms <? MILLISECONDS_A_HOUR then format_mmss (Some ms) else format_HHmmss (Some ms).
Proof.
  intros Hms.
  change MILLISECONDS_A_DAY with 86400000 in Hms.
  assert (E : below_days ms = ms).
  { unfold below_days.
    change MILLISECONDS_A_YEAR with 31536000000.
    change MILLISECONDS_A_MONTH with 2628000000.
    change MILLISECONDS_A_DAY with 86400000.
    rewrite (Z.rem_small ms 31536000000) by lia.
    rewrite (Z.rem_small ms 2628000000) by lia.
    apply Z.rem_small. lia. }
  unfold getDurationString, hours. rewrite E.
  change MILLISECONDS_A_HOUR with 3600000.
  destruct (Z.ltb_spec ms 3600000) as [Hlt|Hge].
  - rewrite Z.quot_small by lia. reflexivity.
  - assert (1 <= ms ÷ 3600000) by (apply Z.quot_le_lower_bound; lia).
    destruct (Z.leb_spec 1 (ms ÷ 3600000)); [reflexivity | lia].
Qed.

Lemma append_assoc (a b c : string) : (a ++ b) ++ c = a ++ (b ++ c).
Proof. induction a as [|x a IH]; [reflexivity|]. change (String x ((a ++ b) ++ c) = String x (a ++ b ++ c)). by f_equal. Qed.

(** The lines of the body: duration, calories, then cadence for
    "Elliptical" and miles and pace for every other name, then the heart
    rates. *)
Lemma calcBody_lines dayjs nts (v : json) (e c d sp a m : Q) :
  qty "activeEnergy" v = Returned e -> qty "stepCadence" v = Returned c ->
  qty "distance" v = Returned d -> qty "speed" v = Returned sp ->
  qty "avgHeartRate" v = Returned a -> qty "maxHeartRate" v = Returned m ->
  calcBody dayjs nts v
  = Returned
      (getDurationString
         (dayjs_duration (dayjs_diff dayjs (js_get "end" v) (js_get "start" v))) ++ LF ++
       toFixed nts 0 e ++ " calories" ++ LF ++
       (if strict_eq_string (js_get "name" v) "Elliptical"
        then LF ++ "Cadence: " ++ toFixed nts 0 c ++ " spm" ++ LF
        else toFixed nts 2 d ++ " miles" ++ LF ++ LF ++
             "Pace: " ++ getDurationString (dayjs_duration (pace_ms sp)) ++ LF) ++
       "HR: " ++ toFixed nts 0 a ++ " - " ++ toFixed nts 0 m ++ " bpm" ++ LF).
Proof.
  intros He Hc Hd Hsp Ha Hm. unfold calcBody. rewrite He, Hc, Hd, Hsp, Ha, Hm.
  destruct (strict_eq_string _ _); cbn [mbind outcome_bind];
    f_equal; cbn [append]; rewrite ?append_assoc; reflexivity.
Qed.

(** Below 10^21, [toFixed( 0 )] writes the digits of the integer nearest
    to a quantity that is not negative, the larger one on a tie. *)
Lemma toFixed_0_nearest nts (x : Q) :
  (0 <= x)%Q -> (x < inject_Z (10 ^ 21))%Q ->
  exists n : Z, toFixed nts 0 x = digits n /\
                (inject_Z n <= x + (1 # 2))%Q /\ (x + (1 # 2) < inject_Z (n + 1))%Q.
Proof.
  intros H0 Hbig. exists (Qfloor (x + (1 # 2))).
  assert (Habs : Qabs x = x).
  { destruct x as [n d]. unfold Qle in H0. cbn in H0. unfold Qabs.
    rewrite Z.abs_eq by lia. reflexivity. }
  split.
  - unfold toFixed. rewrite Habs.
    assert (Hle : Qle_bool 0 x = true) by (by apply Qle_bool_iff).
    assert (Hnb : Qle_bool (inject_Z (10 ^ 21)) x = false).
    { destruct (Qle_bool (inject_Z (10 ^ 21)) x) eqn:E; [|done]. apply Qle_bool_iff in E.
      exact (False_ind _ (Qle_not_lt _ _ E Hbig)). }
    rewrite Hle, Hnb. change ("" ++ ?t) with t. f_equal. apply Qfloor_comp.
    change (inject_Z (10 ^ Z.of_nat 0)) with 1%Q. ring.
  - split; [apply Qfloor_le | apply Qlt_floor].
Qed.

(** C4. A Hiking record that starts at midnight and ends at half past
    midnight a day later lasts 24 h 30 min, one hour or more; its hours
    component is 0, and the body opens with the mm:ss text "30:00". *)
Theorem day_long_workout_body :
  let w := sampleData "Hiking" "2021-09-26T00:00:00" "2021-09-27T00:30:00" [] in
  isWorkoutData iso_reader w = true /\
  dayjs_diff iso_reader (js_get "end" w) (js_get "start" w)
  = Some (inject_Z (24 * MILLISECONDS_A_HOUR + 30 * MILLISECONDS_A_MINUTE)) /\
  calcBody iso_reader no_text w
  = Returned ("30:00" ++ LF ++ "100 calories" ++ LF ++ "1.00 miles" ++ LF ++ LF ++
              "Pace: 15:00" ++ LF ++ "HR: 120 - 140 bpm" ++ LF).
Proof. cbv zeta. repeat split; vm_compute; reflexivity. Qed.

(** ** Lists of tasks *)

Section TaskLists.
Context {A B : Type} (f : A -> B) (P : A -> Prop) `{!forall x, Decision (P x)}.

Lemma filter_insert_keep (l : list A) (i : nat) (x y : A) :
  l !! i = Some x -> f x = f y -> (P x <-> P y) ->
  f <$> filter P (<[i := y]> l) = f <$> filter P l.
Proof.
  revert i. induction l as [|a l IH]; intros [|i] Hi Hf HP; simplify_eq/=; try done.
  - rewrite !filter_cons. destruct (decide (P y)), (decide (P x)); try tauto; cbn.
    all: by rewrite ?Hf.
  - rewrite !filter_cons. destruct (decide (P a)); cbn; by rewrite (IH i).
Qed.

Lemma filter_insert_gain (l : list A) (i : nat) (x y : A) :
  l !! i = Some x -> ~ P x -> P y ->
  f <$> filter P (<[i := y]> l) ≡ₚ f y :: (f <$> filter P l).
Proof.
  revert i. induction l as [|a l IH]; intros [|i] Hi Hx Hy; simplify_eq/=; try done.
  - rewrite !filter_cons. destruct (decide (P y)), (decide (P x)); try tauto. done.
  - rewrite !filter_cons. destruct (decide (P a)); cbn.
    + rewrite (IH i) by done. apply Permutation_swap.
    + by apply IH.
Qed.

End TaskLists.

Lemma sum_list_insert (g : json * stage -> nat) (l : list (json * stage)) i x y :
  l !! i = Some x ->
  (sum_list (g <$> <[i := y]> l) + g x = sum_list (g <$> l) + g y)%nat.
Proof.
  revert i. induction l as [|a l IH]; intros [|i] Hi; simplify_eq/=; try lia.
  specialize (IH i Hi). lia.
Qed.

(** ** mergeData: what holds in every state of a call *)

Section Merge.
Variables (sqlite_text bound_text : json -> string) (throws : json -> bool).

Local Abbreviation step := (step sqlite_text bound_text throws).
Local Abbreviation reach := (reach sqlite_text bound_text throws).
Local Abbreviation moves := (moves sqlite_text bound_text throws).
Local Abbreviation count_start := (count_start sqlite_text).
Local Abbreviation bound_start := (bound_start bound_text).
Local Abbreviation mergeData := (mergeData sqlite_text bound_text throws).

Lemma step_moves (s s' : mstate) (i : nat) (ok : bool) :
  step s i ok = Some s' ->
  exists w st st' c,
    tasks s !! i = Some (w, st) /\
    moves (rows s) w st st' (rows s') c /\
    tasks s' = <[i := (w, st')]> (tasks s) /\
    calls s' = (if c then calls s ++ [i] else calls s)%list.
Proof.
  unfold step. destruct (tasks s !! i) as [[w [| | |r]]|] eqn:Hi; try discriminate.
  - destruct ok.
    + destruct (read_start w) as [p|] eqn:Hp.
      * destruct (Nat.eqb_spec (count_start (rows s) (bound_start p)) 0) as [Hc|Hc];
          intros [= <-]; eexists w, _, _, false; cbn;
          (split_and!; [done | econstructor; eassumption | done | done]).
      * intros [= <-]; eexists w, _, _, false; cbn.
        split_and!; [done | constructor | done | done].
    + intros [= <-]; eexists w, _, _, false; cbn.
      split_and!; [done | constructor | done | done].
  - destruct ok; intros [= <-]; eexists w, _, _, false; cbn;
      (split_and!; [done | constructor | done | done]).
  - destruct ok; intros [= <-].
    + eexists w, _, _, true; cbn. split_and!; [done | constructor | done | done].
    + eexists w, _, _, false; cbn. split_and!; [done | constructor | done | done].
Qed.

Lemma moves_has_row db w st st' db' c :
  moves db w st st' db' c ->
  (has_row st = true -> has_row st' = true /\ db' = db) /\
  (has_row st = false -> has_row st' = true -> db' = (db ++ [w])%list) /\
  (has_row st' = false -> db' = db).
Proof. destruct 1; cbn; repeat split; try done; destruct (throws w); done. Qed.

Lemma moves_called db w st st' db' c :
  moves db w st st' db' c -> called st = false /\ called st' = c.
Proof. destruct 1; cbn; try done. destruct (throws w); done. Qed.

(** The elements stay those of the batch, in its order. *)
Lemma reach_tasks (db : table) (ws : list json) (s : mstate) :
  reach (mergeData_start db ws) s -> fst <$> tasks s = ws.
Proof.
  remember (mergeData_start db ws) as s0 eqn:E. induction 1 as [s|s i ok s' s'' _ IH Hstep].
  - subst. cbn. rewrite <- list_fmap_compose. apply list_fmap_id.
  - apply step_moves in Hstep as (w & st & st' & c & Hi & _ & -> & _).
    rewrite list_fmap_insert. cbn. rewrite <- (IH E). apply list_insert_id.
    rewrite list_lookup_fmap, Hi. reflexivity.
Qed.

(** The table is the one the call started from followed by the rows of
    the elements that have reached their insert. *)
Lemma reach_rows (db : table) (ws : list json) (s : mstate) :
  reach (mergeData_start db ws) s ->
  exists ins, rows s = (db ++ ins)%list /\ ins ≡ₚ inserted (tasks s).
Proof.
  remember (mergeData_start db ws) as s0 eqn:E. induction 1 as [s|s i ok s' s'' _ IH Hstep].
  - subst. exists []. cbn. split; [by rewrite app_nil_r|].
    unfold inserted. induction ws as [|w ws IHws]; [done|].
    rewrite fmap_cons, filter_cons_False; [exact IHws | cbn; done].
  - destruct (IH E) as (ins & Hrows & Hins).
    apply step_moves in Hstep as (w & st & st' & c & Hi & Hm & Ht & _).
    apply moves_has_row in Hm as (H1 & H2 & H3). rewrite Ht. unfold inserted.
    destruct (has_row st) eqn:Hst.
    + destruct H1 as [Hst' ->]; [done|]. exists ins. split; [done|].
      rewrite Hins. unfold inserted.
      by rewrite (filter_insert_keep fst _ _ i (w, st) (w, st')); cbn; rewrite ?Hst, ?Hst'.
    + destruct (has_row st') eqn:Hst'.
      * rewrite H2 by done. exists (ins ++ [w])%list. split.
        { rewrite Hrows. by rewrite app_assoc. }
        rewrite (filter_insert_gain fst _ _ i (w, st) (w, st')); cbn; rewrite ?Hst; try done.
        rewrite <- Permutation_cons_append. by rewrite Hins.
      * rewrite H3 by done. exists ins. split; [done|].
        rewrite Hins. unfold inserted.
        by rewrite (filter_insert_keep fst _ _ i (w, st) (w, st')); cbn; rewrite ?Hst, ?Hst'.
Qed.

(** The callback has been called once on the elements whose stage says
    so, and on no other. *)
Lemma reach_calls (db : table) (ws : list json) (s : mstate) :
  reach (mergeData_start db ws) s ->
  forall j, count_occ Nat.eq_dec (calls s) j
            = match tasks s !! j with
              | Some (_, st) => if called st then 1%nat else 0%nat
              | None => 0%nat
              end.
Proof.
  remember (mergeData_start db ws) as s0 eqn:E. induction 1 as [s|s i ok s' s'' _ IH Hstep].
  - subst. intros j. cbn. rewrite list_lookup_fmap.
    destruct (ws !! j); reflexivity.
  - intros j. specialize (IH E j).
    apply step_moves in Hstep as (w & st & st' & c & Hi & Hm & Ht & Hc).
    apply moves_called in Hm as [Hst Hst']. rewrite Ht, Hc.
    destruct (decide (i = j)) as [->|Hne].
    + rewrite list_lookup_insert_eq by (eapply lookup_lt_Some; eauto).
      rewrite Hi, Hst in IH. rewrite Hst'. destruct c; [|done].
      rewrite count_occ_app, IH. cbn. destruct (Nat.eq_dec j j); done.
    + rewrite list_lookup_insert_ne by done.
      destruct c; [|done]. rewrite count_occ_app, IH. cbn.
      destruct (Nat.eq_dec i j); [done|]. lia.
Qed.

Lemma count_start_app (a b : table) p :
  count_start (a ++ b)%list p = (count_start a p + count_start b p)%nat.
Proof. unfold count_start. by rewrite filter_app, length_app. Qed.

Lemma count_start_perm (a b : table) p :
  a ≡ₚ b -> count_start a p = count_start b p.
Proof. intros H. unfold count_start. by rewrite H. Qed.

Lemma reach_trans (s1 s2 s3 : mstate) : reach s1 s2 -> reach s2 s3 -> reach s1 s3.
Proof.
  intros H12 H23. induction H23 as [|s2 i ok s s' _ IH Hs]; [done|].
  eapply reach_step; [exact (IH H12) | exact Hs].
Qed.

(** A record found present stays present: rows are only ever added. *)
Lemma reach_seen (db : table) (ws : list json) (s : mstate) :
  reach (mergeData_start db ws) s ->
  forall j w, tasks s !! j = Some (w, Settled Seen) ->
              exists p, read_start w = Returned p /\
                        count_start (rows s) (bound_start p) <> 0%nat.
Proof.
  remember (mergeData_start db ws) as s0 eqn:E. induction 1 as [s|s i ok s' s'' _ IH Hstep].
  - subst. intros j w. cbn. rewrite list_lookup_fmap.
    destruct (ws !! j); cbn; intros [=].
  - intros j w Hj. specialize (IH E j w).
    apply step_moves in Hstep as (w' & st & st' & c & Hi & Hm & Ht & _).
    rewrite Ht in Hj. destruct (decide (i = j)) as [->|Hne].
    + rewrite list_lookup_insert_eq in Hj by (eapply lookup_lt_Some; eauto).
      injection Hj as -> ->. inversion Hm; subst; try (destruct (throws w); discriminate).
      eauto.
    + rewrite list_lookup_insert_ne in Hj by done.
      destruct (IH Hj) as (p & Hp & Hc). exists p. split; [done|].
      inversion Hm; subst; try done. rewrite count_start_app. lia.
Qed.

(** An element that is not settled can be resumed, whatever has happened
    to the others. *)
Lemma step_enabled (s : mstate) (i : nat) (w : json) (st : stage) (ok : bool) :
  tasks s !! i = Some (w, st) -> is_settled (w, st) = false ->
  exists s', step s i ok = Some s'.
Proof.
  intros Hi Hst. unfold step. rewrite Hi.
  destruct st as [| | |r]; [| | |discriminate]; destruct ok; eauto.
  destruct (read_start w); [|eauto]. destruct (_ =? _)%nat; eauto.
Qed.

Lemma step_remaining (s s' : mstate) (i : nat) (ok : bool) :
  step s i ok = Some s' -> (remaining s' < remaining s)%nat.
Proof.
  intros (w & st & st' & c & Hi & Hm & Ht & _)%step_moves.
  unfold remaining. rewrite Ht.
  pose proof (sum_list_insert ahead (tasks s) i (w, st) (w, st') Hi) as E.
  assert (ahead (w, st') < ahead (w, st))%nat by (destruct Hm; cbn; lia).
  lia.
Qed.

Lemma unsettled_task (ts : list (json * stage)) :
  forallb is_settled ts = false ->
  exists i w st, ts !! i = Some (w, st) /\ is_settled (w, st) = false.
Proof.
  induction ts as [|[w st] ts IH]; [discriminate|]. cbn [forallb].
  destruct (is_settled (w, st)) eqn:Hs.
  - intros (i & w' & st' & Hi & H)%IH. exists (S i), w', st'. done.
  - intros _. exists 0%nat, w, st. done.
Qed.

(** From every state the call can run to the end, and no run is longer
    than three resumptions per element. *)
Lemma reach_all_settled (s : mstate) :
  exists s', reach s s' /\ all_settled s' = true.
Proof.
  remember (remaining s) as n eqn:En. revert s En.
  induction (lt_wf n) as [n _ IH]. intros s En.
  destruct (all_settled s) eqn:Hs.
  - exists s. split; [constructor | done].
  - apply unsettled_task in Hs as (i & w & st & Hi & Hst).
    destruct (step_enabled s i w st true Hi Hst) as [s1 Hstep].
    destruct (IH (remaining s1)) with (s := s1) as (s' & Hr & Hall);
      [subst n; eapply step_remaining; eauto | done |].
    exists s'. split; [|done].
    eapply reach_trans; [|exact Hr]. econstructor; [constructor | exact Hstep].
Qed.

Lemma reach_run (s : mstate) (sched : list (nat * bool)) :
  reach s (run sqlite_text bound_text throws s sched).
Proof.
  assert (G : forall s0, reach s0 s -> reach s0 (run sqlite_text bound_text throws s sched)).
  { revert s. induction sched as [|[i ok] sched IH]; intros s s0 H; cbn; [done|].
    destruct (step s i ok) as [s'|] eqn:Hs; [|by apply IH].
    apply IH. econstructor; eauto. }
  apply G. constructor.
Qed.

Lemma reach_has_row (db : table) (ws : list json) (s : mstate) j w st :
  reach (mergeData_start db ws) s ->
  tasks s !! j = Some (w, st) -> has_row st = true -> w ∈ rows s.
Proof.
  intros Hr Hj Hst. destruct (reach_rows db ws s Hr) as (ins & -> & Hins).
  apply elem_of_app. right. rewrite Hins. unfold inserted.
  apply (list_elem_of_fmap_2' fst _ (w, st)); [|done].
  apply list_elem_of_filter. split; [done|]. eapply list_elem_of_lookup_2; eauto.
Qed.

(** What the stages say in any state a call can reach: the callback has
    been called once on the elements whose stage is [New] or
    [CallbackThrew] and on no other; a row is there for each of them; the
    key of an element at [Seen] is in the table.  An element that has not
    settled can always be resumed, every resumption brings the end
    nearer, and the call can always be run until all have settled. *)
Lemma reach_stage_calls (db : table) (ws : list json) (s : mstate) :
  reach (mergeData_start db ws) s ->
  (forall j w st,
      tasks s !! j = Some (w, st) ->
      ws !! j = Some w /\
      count_occ Nat.eq_dec (calls s) j = (if called st then 1%nat else 0%nat) /\
      (st = Settled Seen \/ store_failed st = true ->
       count_occ Nat.eq_dec (calls s) j = 0%nat) /\
      (st = Settled New \/ st = Settled CallbackThrew ->
       count_occ Nat.eq_dec (calls s) j = 1%nat /\ w ∈ rows s) /\
      (st = Settled Seen ->
       exists p, read_start w = Returned p /\
                 count_start (rows s) (bound_start p) <> 0%nat) /\
      (is_settled (w, st) = false -> forall ok, exists s', step s j ok = Some s')) /\
  (forall i ok s', step s i ok = Some s' -> (remaining s' < remaining s)%nat) /\
  (exists s', reach s s' /\ all_settled s' = true).
Proof.
  intros Hr. split; [|split].
  - intros j w st Hj.
    pose proof (reach_calls db ws s Hr j) as Hc. rewrite Hj in Hc.
    split_and!.
    + rewrite <- (reach_tasks db ws s Hr), list_lookup_fmap, Hj. done.
    + exact Hc.
    + intros [->|Hf]; [exact Hc|]. rewrite Hc. by destruct st as [| | |[]].
    + intros Hst. split.
      * rewrite Hc. by destruct Hst as [->| ->].
      * eapply reach_has_row; eauto. by destruct Hst as [->| ->].
    + intros ->. eapply reach_seen; eauto.
    + intros Hs ok. eapply step_enabled; eauto.
  - intros i ok s'. apply step_remaining.
  - apply reach_all_settled.
Qed.

(** *** Records with string starts *)

Lemma start_string_reads (w : json) (k : string) :
  start_string w = Some k ->
  read_start w = Returned (Some (JStr k)) /\
  bound_start (Some (JStr k)) = Some k /\
  start_column sqlite_text w = Some k.
Proof.
  unfold start_string, read_start, start_column. intros H.
  destruct w; try discriminate.
  destruct (js_get "start" (JObj kvs)) as [[]|] eqn:E; try discriminate.
  injection H as ->. done.
Qed.

Lemma start_eq_iff (row : json) (k : string) :
  start_eq sqlite_text row (Some k) = true <-> start_column sqlite_text row = Some k.
Proof.
  unfold start_eq. destruct (start_column sqlite_text row) as [c|]; [|done].
  destruct (String.eqb_spec c k); split; congruence.
Qed.

(** The count is not 0 exactly when some row has the very same start
    text. *)
Lemma count_start_present (db : table) (k : string) :
  count_start db (Some k) <> 0%nat <->
  exists row, row ∈ db /\ start_column sqlite_text row = Some k.
Proof.
  unfold count_start. split.
  - intros H. destruct (filter _ db) as [|row l] eqn:E; [done|].
    assert (Hin : row ∈ filter (fun row => start_eq sqlite_text row (Some k) = true) db)
      by (rewrite E; left).
    apply list_elem_of_filter in Hin as [Hk Hin]. exists row. by rewrite <- start_eq_iff.
  - intros (row & Hin & Hk) H. apply length_zero_iff_nil in H.
    apply (filter_nil_not_elem_of
             (fun row => start_eq sqlite_text row (Some k) = true) db row H);
      [by apply start_eq_iff | done].
Qed.

Lemma count_start_absent (db : table) (k : string) :
  (forall row, row ∈ db -> start_column sqlite_text row <> Some k) ->
  count_start db (Some k) = 0%nat.
Proof.
  intros H. destruct (decide (count_start db (Some k) = 0%nat)) as [|Hne]; [done|].
  apply count_start_present in Hne as (row & Hin & Hk). by destruct (H row Hin).
Qed.

Lemma count_start_one (w : json) (k : string) :
  start_column sqlite_text w = Some k -> count_start [w] (Some k) = 1%nat.
Proof.
  intros H. unfold count_start. rewrite filter_cons_True; [done|]. by apply start_eq_iff.
Qed.

Lemma elem_of_inserted (ts : list (json * stage)) (w : json) :
  w ∈ inserted ts -> exists j st, ts !! j = Some (w, st) /\ has_row st = true.
Proof.
  unfold inserted. intros ([w' st] & -> & Hin)%list_elem_of_fmap.
  apply list_elem_of_filter in Hin as [Hst Hin].
  apply list_elem_of_lookup in Hin as [j Hj]. eauto.
Qed.

(** Among tasks with pairwise different keys, the rows written so far
    hold the key of a task once if its row is written, and not at all
    otherwise. *)
Lemma count_start_inserted (ts : list (json * stage)) i w st k :
  ts !! i = Some (w, st) ->
  start_column sqlite_text w = Some k ->
  (forall j w' st', j <> i -> ts !! j = Some (w', st') ->
                    start_column sqlite_text w' <> Some k) ->
  count_start (inserted ts) (Some k) = (if has_row st then 1%nat else 0%nat).
Proof.
  intros Hi Hk Hother.
  rewrite <- (take_drop_middle ts i (w, st) Hi). unfold inserted.
  rewrite filter_app, filter_cons, fmap_app. cbn [snd].
  rewrite count_start_app.
  rewrite (count_start_absent (fst <$> filter _ (take i ts))).
  2:{ intros row ([w' st'] & -> & Hin)%list_elem_of_fmap.
      apply list_elem_of_filter in Hin as [_ Hin].
      apply list_elem_of_lookup in Hin as [j Hj].
      pose proof (lookup_lt_Some _ _ _ Hj) as Hlt. rewrite length_take in Hlt.
      rewrite lookup_take_lt in Hj by lia. apply (Hother j w' st'); [lia | done]. }
  assert (Hdrop : count_start (fst <$> filter (fun t => has_row t.2 = true) (drop (S i) ts))
                              (Some k) = 0%nat).
  { apply count_start_absent.
    intros row ([w' st'] & -> & Hin)%list_elem_of_fmap.
    apply list_elem_of_filter in Hin as [_ Hin].
    apply list_elem_of_lookup in Hin as [j Hj].
    rewrite lookup_drop in Hj. apply (Hother (S i + j)%nat w' st'); [lia | done]. }
  destruct (decide (has_row st = true)) as [Hst|Hst].
  - rewrite Hst, fmap_cons. cbn [fst].
    change (w :: ?l) with ([w] ++ l)%list. rewrite count_start_app, Hdrop.
    rewrite count_start_one by done. done.
  - rewrite Hdrop. by destruct (has_row st).
Qed.

Section DistinctStarts.
Variables (db : table) (ws : list json).
Hypothesis Hws : distinct_starts ws.

Lemma other_start (s : mstate) i j w w' st st' k :
  reach (mergeData_start db ws) s ->
  tasks s !! i = Some (w, st) -> tasks s !! j = Some (w', st') -> j <> i ->
  start_string w = Some k -> start_column sqlite_text w' <> Some k.
Proof.
  intros Hr Hi Hj Hne Hk Hk'. destruct Hws as [Hstr Hnd].
  pose proof (reach_tasks db ws s Hr) as Ht.
  assert (Hwi : ws !! i = Some w) by (by rewrite <- Ht, list_lookup_fmap, Hi).
  assert (Hwj : ws !! j = Some w') by (by rewrite <- Ht, list_lookup_fmap, Hj).
  rewrite Forall_lookup in Hstr. destruct (Hstr j w' Hwj) as [k' Hk'j].
  destruct (start_string_reads w' k' Hk'j) as (_ & _ & Hc). rewrite Hc in Hk'.
  injection Hk' as ->. apply Hne.
  apply (NoDup_lookup (start_string <$> ws) j i (Some k) Hnd);
    rewrite list_lookup_fmap; [by rewrite Hwj; cbn; rewrite Hk'j | by rewrite Hwi; cbn; rewrite Hk].
Qed.

(** The count for a record's start is the count in the table the call
    started from, plus one once its own row is written: the other
    elements of the batch never touch it. *)
Lemma reach_count (s : mstate) i w st k :
  reach (mergeData_start db ws) s ->
  tasks s !! i = Some (w, st) -> start_string w = Some k ->
  count_start (rows s) (Some k)
  = (count_start db (Some k) + (if has_row st then 1 else 0))%nat.
Proof.
  intros Hr Hi Hk. destruct (reach_rows db ws s Hr) as (ins & -> & Hins).
  rewrite count_start_app. f_equal. rewrite (count_start_perm _ _ _ Hins).
  apply (count_start_inserted _ i w st k Hi).
  - by apply start_string_reads.
  - intros j w' st' Hne Hj. exact (other_start s i j w w' st st' k Hr Hi Hj Hne Hk).
Qed.

(** What the stage of an element says about the table the call started
    from. *)
Lemma reach_counted (s : mstate) :
  reach (mergeData_start db ws) s ->
  forall i w st k,
    tasks s !! i = Some (w, st) -> start_string w = Some k ->
    (counted_zero st = true -> count_start db (Some k) = 0%nat) /\
    (st = Settled Seen -> count_start db (Some k) <> 0%nat).
Proof.
  remember (mergeData_start db ws) as s0 eqn:E.
  induction 1 as [s|s i0 ok s' s'' Hr IH Hstep].
  - subst. intros i w st k. cbn. rewrite list_lookup_fmap.
    destruct (ws !! i); cbn; [|done]. intros [= <- <-] _. done.
  - specialize (IH E). subst s. intros i w st k Hi Hk.
    pose proof Hstep as (w0 & st0 & st0' & c & Hi0 & Hm & Ht & _)%step_moves.
    rewrite Ht in Hi. destruct (decide (i0 = i)) as [->|Hne].
    2:{ rewrite list_lookup_insert_ne in Hi by done. eauto. }
    rewrite list_lookup_insert_eq in Hi by (eapply lookup_lt_Some; eauto).
    injection Hi as -> ->.
    destruct (IH i w st0 k Hi0 Hk) as [IH1 IH2].
    destruct (start_string_reads w k Hk) as (Hread & Hbound & _).
    pose proof (reach_count s' i w st0 k Hr Hi0 Hk) as Hcount.
    inversion Hm as [ | p Hp Hc | p Hp Hc | | | | ]; subst; cbn [has_row] in Hcount.
    + split; intros [=].
    + rewrite Hread in Hp. injection Hp as <-. rewrite Hbound in Hc.
      split; [intros _; lia | intros [=]].
    + rewrite Hread in Hp. injection Hp as <-. rewrite Hbound in Hc.
      split; [intros [=] | intros _; lia].
    + split; [intros _; by apply IH1 | intros [=]].
    + split; [intros _; by apply IH1 | intros [=]].
    + split; [intros _; by apply IH1 | by destruct (throws w)].
    + split; [intros _; by apply IH1 | intros [=]].
Qed.

Lemma settled_lookup (s : mstate) i w st :
  all_settled s = true -> tasks s !! i = Some (w, st) -> exists r, st = Settled r.
Proof.
  unfold all_settled. intros Hall Hi.
  assert (H : is_settled (w, st) = true).
  { rewrite forallb_forall in Hall. apply Hall, list_elem_of_In.
    eapply list_elem_of_lookup_2; eauto. }
  destruct st; try discriminate. eauto.
Qed.

(** When the call has finished without a store error, the elements whose
    start was not in the table have been inserted and notified, and the
    others were found present. *)
Lemma finished_stage (s : mstate) i w st k :
  reach (mergeData_start db ws) s -> all_settled s = true -> no_store_error s ->
  tasks s !! i = Some (w, st) -> start_string w = Some k ->
  (count_start db (Some k) = 0%nat -> called st = true /\ has_row st = true) /\
  (count_start db (Some k) <> 0%nat -> st = Settled Seen).
Proof.
  intros Hr Hall Herr Hi Hk.
  destruct (settled_lookup s i w st Hall Hi) as [r ->].
  unfold no_store_error in Herr. rewrite Forall_lookup in Herr.
  specialize (Herr i _ Hi). cbn in Herr.
  destruct (reach_counted s Hr i w _ k Hi Hk) as [H1 H2].
  destruct r; try discriminate; cbn in *; split; try done; intros H.
  - by destruct H2.
  - by destruct H; apply H1.
  - by destruct H; apply H1.
Qed.

End DistinctStarts.

(** When every record of the batch is already in the table, the call
    inserts nothing and calls nothing. *)
Lemma reach_all_present (db : table) (ws : list json) (s : mstate) :
  (forall w p, w ∈ ws -> read_start w = Returned p ->
               count_start db (bound_start p) <> 0%nat) ->
  reach (mergeData_start db ws) s ->
  rows s = db /\ calls s = [] /\
  forall i w st, tasks s !! i = Some (w, st) -> counted_zero st = false.
Proof.
  intros Hpresent Hr.
  remember (mergeData_start db ws) as s0 eqn:E.
  induction Hr as [s|s i0 ok s' s'' Hr IH Hstep].
  - subst. cbn. split_and!; try done. intros i w st.
    rewrite list_lookup_fmap. destruct (ws !! i); cbn; [|done]. by intros [= <- <-].
  - destruct (IH E) as (Hrows & Hcalls & Hst). subst s.
    pose proof (reach_tasks db ws s' Hr) as Hts.
    apply step_moves in Hstep as (w0 & st0 & st0' & c & Hi0 & Hm & Ht & Hc).
    pose proof (Hst i0 w0 st0 Hi0) as Hz.
    assert (Hin : w0 ∈ ws).
    { rewrite <- Hts. apply (list_elem_of_fmap_2' fst _ (w0, st0)); [|done].
      eapply list_elem_of_lookup_2; eauto. }
    inversion Hm as [ | p Hp Hcnt | p Hp Hcnt | | | | ]; subst; try discriminate.
    + split_and!; try congruence. intros i w st. rewrite Ht.
      destruct (decide (i0 = i)) as [->|Hne].
      * rewrite list_lookup_insert_eq by (eapply lookup_lt_Some; eauto).
        by intros [= <- <-].
      * rewrite list_lookup_insert_ne by done. apply Hst.
    + by destruct (Hpresent w0 p Hin Hp).
    + split_and!; try congruence. intros i w st. rewrite Ht.
      destruct (decide (i0 = i)) as [->|Hne].
      * rewrite list_lookup_insert_eq by (eapply lookup_lt_Some; eauto).
        by intros [= <- <-].
      * rewrite list_lookup_insert_ne by done. apply Hst.
Qed.

Lemma task_of_record (db : table) (ws : list json) (s : mstate) j w :
  reach (mergeData_start db ws) s -> ws !! j = Some w ->
  exists st, tasks s !! j = Some (w, st).
Proof.
  intros Hr Hj. rewrite <- (reach_tasks db ws s Hr), list_lookup_fmap in Hj.
  destruct (tasks s !! j) as [[w' st]|]; [|done]. injection Hj as ->. eauto.
Qed.

(** After a call that finished without a store error, the start of every
    record of the batch is in the table. *)
Lemma finished_present (db : table) (ws : list json) (s : mstate) :
  distinct_starts ws ->
  reach (mergeData_start db ws) s -> all_settled s = true -> no_store_error s ->
  forall w p, w ∈ ws -> read_start w = Returned p ->
              count_start (rows s) (bound_start p) <> 0%nat.
Proof.
  intros Hws Hr Hall Herr w p Hin Hp.
  apply list_elem_of_lookup in Hin as [j Hj].
  destruct (task_of_record db ws s j w Hr Hj) as [st Hst].
  destruct Hws as [Hstr Hnd]. pose proof Hstr as Hstr'.
  rewrite Forall_lookup in Hstr'. destruct (Hstr' j w Hj) as [k Hk].
  destruct (start_string_reads w k Hk) as (Hread & Hbound & _).
  rewrite Hread in Hp. injection Hp as <-. rewrite Hbound.
  rewrite (reach_count db ws (conj Hstr Hnd) s j w st k Hr Hst Hk).
  destruct (finished_stage db ws (conj Hstr Hnd) s j w st k Hr Hall Herr Hst Hk) as [H0 H1].
  destruct (decide (count_start db (Some k) = 0%nat)) as [Hz|Hnz]; [|lia].
  destruct (H0 Hz) as [_ ->]. lia.
Qed.

(** Merging a batch of records with pairwise different start strings
    twice, in terms of the count query: after a first call without a
    store error each start counted 0 before is counted once, the others
    as before; the callback was called once on the records counted 0; the
    second call leaves the table as it is and calls nothing. *)
Lemma merge_twice_counts (db : table) (ws : list json) (s1 s2 : mstate) :
  distinct_starts ws ->
  mergeData db ws s1 -> no_store_error s1 ->
  mergeData (rows s1) ws s2 ->
  (forall j w k,
      ws !! j = Some w -> start_string w = Some k ->
      count_start (rows s2) (Some k)
      = (if decide (count_start db (Some k) = 0%nat) then 1%nat
         else count_start db (Some k)) /\
      count_occ Nat.eq_dec (calls s1) j
      = (if decide (count_start db (Some k) = 0%nat) then 1%nat else 0%nat) /\
      count_occ Nat.eq_dec (calls s2) j = 0%nat) /\
  rows s2 = rows s1 /\
  calls s2 = [].
Proof.
  intros Hws [Hr1 Hall] Herr [Hr2 _].
  destruct (reach_all_present (rows s1) ws s2
              (finished_present db ws s1 Hws Hr1 Hall Herr) Hr2) as (Hrows & Hcalls & _).
  split; [|done]. intros j w k Hj Hk. rewrite Hrows, Hcalls.
  destruct (task_of_record db ws s1 j w Hr1 Hj) as [st Hst].
  rewrite (reach_count db ws Hws s1 j w st k Hr1 Hst Hk).
  pose proof (reach_calls db ws s1 Hr1 j) as Hc. rewrite Hst in Hc. rewrite Hc.
  destruct (finished_stage db ws Hws s1 j w st k Hr1 Hall Herr Hst Hk) as [H0 H1].
  destruct (decide (count_start db (Some k) = 0%nat)) as [Hz|Hnz].
  - destruct (H0 Hz) as [-> ->]. split_and!; [lia | done | done].
  - rewrite (H1 Hnz). cbn. split_and!; [lia | done | done].
Qed.

Lemma count_occ_single (l : list nat) (b : bool) :
  (forall j, count_occ Nat.eq_dec l j
             = match j with O => if b then 1%nat else 0%nat | S _ => 0%nat end) ->
  l = if b then [0%nat] else [].
Proof.
  intros H. destruct l as [|a l].
  - specialize (H 0%nat). destruct b; [discriminate | done].
  - pose proof (H a) as Ha. rewrite count_occ_cons_eq in Ha by done.
    destruct a; [|discriminate]. destruct b; [|discriminate].
    destruct l as [|c l]; [done|].
    pose proof (H c) as Hc. destruct c.
    + rewrite !count_occ_cons_eq in Hc by done. discriminate.
    + rewrite count_occ_cons_neq, count_occ_cons_eq in Hc by done. discriminate.
Qed.

(** A batch of one record: inserted and notified when its start is not in
    the table, left out when it is. *)
Lemma merge_single (db : table) (w : json) (k : string) (s : mstate) :
  start_string w = Some k ->
  reach (mergeData_start db [w]) s -> all_settled s = true -> no_store_error s ->
  (count_start db (Some k) = 0%nat ->
   rows s = (db ++ [w])%list /\ calls s = [0%nat]) /\
  (count_start db (Some k) <> 0%nat -> rows s = db /\ calls s = []).
Proof.
  intros Hk Hr Hall Herr.
  assert (Hws : distinct_starts [w]).
  { split; [by repeat constructor; rewrite Hk | cbn; apply NoDup_singleton]. }
  destruct (task_of_record db [w] s 0 w Hr eq_refl) as [st Hst].
  pose proof (reach_tasks db [w] s Hr) as Hts.
  destruct (tasks s) as [|t [|t' ts]] eqn:Et; try discriminate.
  injection Hst as ->.
  destruct (reach_rows db [w] s Hr) as (ins & Hrows & Hins).
  rewrite Et in Hins. unfold inserted in Hins. rewrite filter_cons in Hins.
  assert (Hcalls : calls s = if called st then [0%nat] else []).
  { apply count_occ_single. intros j. rewrite (reach_calls db [w] s Hr j), Et.
    destruct j as [|[|j]]; done. }
  destruct (finished_stage db [w] Hws s 0 w st k Hr Hall Herr) as [H0 H1];
    [by rewrite Et | done |].
  split; intros Hc.
  - destruct (H0 Hc) as [Hcd Hrow]. rewrite Hcalls, Hcd. split; [|done].
    cbn [snd] in Hins. rewrite Hrow in Hins. cbn in Hins.
    apply Permutation_singleton_r in Hins. by rewrite Hrows, Hins.
  - rewrite (H1 Hc) in *. cbn in Hins. apply Permutation_nil_r in Hins.
    rewrite Hcalls, Hrows, Hins. by rewrite app_nil_r.
Qed.

(** C7. The existence check goes by the text of the start alone: the
    resumed check of a record finds it present exactly when some row's
    start column is the same string, and absent exactly when none is.
    Merged one after the other into a table holding neither, two records
    whose start strings differ are both inserted, whatever instants the
    strings denote, and of two records with the same start string only
    the first is, however else they differ. *)
Theorem start_key_is_exact_string (db : table) (w1 w2 : json) (k1 k2 : string)
        (s1 s2 : mstate) :
  start_string w1 = Some k1 -> start_string w2 = Some k2 ->
  count_start db (Some k1) = 0%nat -> count_start db (Some k2) = 0%nat ->
  mergeData db [w1] s1 -> no_store_error s1 ->
  mergeData (rows s1) [w2] s2 -> no_store_error s2 ->
  (forall s i w k,
      tasks s !! i = Some (w, AwaitCount) -> start_string w = Some k ->
      (step s i true = Some (set_stage s i w (Settled Seen)) <->
       exists row, row ∈ rows s /\ start_column sqlite_text row = Some k) /\
      (step s i true = Some (set_stage s i w AwaitInsert) <->
       ~ exists row, row ∈ rows s /\ start_column sqlite_text row = Some k)) /\
  (k1 <> k2 -> rows s2 = (db ++ [w1; w2])%list /\ calls s1 = [0%nat] /\ calls s2 = [0%nat]) /\
  (k1 = k2 -> rows s2 = (db ++ [w1])%list /\ calls s1 = [0%nat] /\ calls s2 = []).
Proof.
  intros Hk1 Hk2 Hc1 Hc2 [Hr1 Hall1] Herr1 [Hr2 Hall2] Herr2.
  destruct (merge_single db w1 k1 s1 Hk1 Hr1 Hall1 Herr1) as [[Hrows1 Hcalls1] _]; [done|].
  destruct (merge_single (rows s1) w2 k2 s2 Hk2 Hr2 Hall2 Herr2) as [Hnew Hold].
  destruct (start_string_reads w1 k1 Hk1) as (_ & _ & Hcol1).
  split_and!.
  - intros s i w k Hi Hk. destruct (start_string_reads w k Hk) as (Hread & Hbound & _).
    unfold step. rewrite Hi, Hread, Hbound.
    assert (Hne : set_stage s i w AwaitInsert <> set_stage s i w (Settled Seen)).
    { intros [= E]. apply (f_equal (fun l => l !! i)) in E.
      rewrite !list_lookup_insert_eq in E by (eapply lookup_lt_Some; eauto). done. }
    rewrite <- count_start_present.
    destruct (Nat.eqb_spec (count_start (rows s) (Some k)) 0) as [Hz|Hnz].
    + split; split; try done; congruence.
    + split; split; try done; congruence.
  - intros Hne. rewrite Hrows1 in Hnew.
    destruct Hnew as [-> ->]; [|by rewrite <- app_assoc].
    rewrite count_start_app, Hc2. apply count_start_absent.
    intros row ->%list_elem_of_singleton. rewrite Hcol1. congruence.
  - intros <-. rewrite Hrows1 in Hold.
    destruct Hold as [-> ->]; [|done].
    rewrite count_start_app, Hc1, count_start_one by done. done.
Qed.


(** *** Reloading the store *)

Variables (dayjs : string -> option Z) (nts : Q -> string).

Lemma createFromWorkoutData_returns (v : json) :
  exists r, createFromWorkoutData dayjs nts v = Returned r.
Proof.
  unfold createFromWorkoutData. destruct (isWorkoutData dayjs v) eqn:Hv; [|eauto].
  destruct (isWorkoutData_name dayjs v Hv) as [n ->].
  destruct (negb _); [eauto|].
  destruct (calcBody_returns dayjs nts v Hv) as [b Hb].
  unfold new_CalendarWorkoutEvent. rewrite Hb. cbn. eauto.
Qed.

Lemma getCalendarWorkoutEvents_direct (l : table) :
  getCalendarWorkoutEvents dayjs nts l = Returned (omap (direct_event dayjs nts) l).
Proof.
  induction l as [|aRow l IH]; [done|]. cbn [getCalendarWorkoutEvents omap list_omap].
  unfold direct_event at 1.
  destruct (createFromWorkoutData_returns aRow) as [r ->]. cbn. rewrite IH. cbn.
  by destruct r.
Qed.

Lemma filter_all {A} (P : A -> Prop) `{!forall x, Decision (P x)} (l : list A) :
  Forall P l -> filter P l = l.
Proof.
  induction 1 as [|x l Hx _ IH]; [done|]. by rewrite filter_cons_True, IH.
Qed.

(** Merged into an empty table without a store error, a batch of records
    with pairwise different start strings is the table, up to the order in
    which the inserts were resumed. *)
Lemma merge_into_empty (ws : list json) (s : mstate) :
  distinct_starts ws ->
  reach (mergeData_start [] ws) s -> all_settled s = true -> no_store_error s ->
  rows s ≡ₚ ws.
Proof.
  intros Hws Hr Hall Herr. destruct (reach_rows [] ws s Hr) as (ins & -> & Hins).
  cbn. rewrite Hins. unfold inserted. rewrite filter_all.
  - by rewrite (reach_tasks [] ws s Hr).
  - apply Forall_lookup. intros j [w st] Hj. cbn.
    assert (Hwj : ws !! j = Some w)
      by (by rewrite <- (reach_tasks [] ws s Hr), list_lookup_fmap, Hj).
    destruct Hws as [Hstr Hnd]. pose proof Hstr as Hstr'.
    rewrite Forall_lookup in Hstr'. destruct (Hstr' j w Hwj) as [k Hk].
    destruct (finished_stage [] ws (conj Hstr Hnd) s j w st k Hr Hall Herr Hj Hk) as [H0 _].
    by destruct H0.
Qed.

Lemma direct_events (ws : list json) :
  Forall (fun w => isWorkoutData dayjs w = true /\
                   exists n, js_get "name" w = Some (JStr n) /\ In n allowedWorkoutNames) ws ->
  Forall2 (fun w e => createFromWorkoutData dayjs nts w = Returned (Some e) /\
                      getName e = calcName w /\
                      calcBody dayjs nts w = Returned (getBody e))
          ws (omap (direct_event dayjs nts) ws).
Proof.
  induction 1 as [|w ws (Hv & n & Hn & Hin) _ IH]; [constructor|].
  destruct (create_passing dayjs nts w n Hv Hn (allowed_js_in n Hin)) as (b & Hb & Hc).
  cbn [omap list_omap]. unfold direct_event at 1. rewrite Hc.
  constructor; [by rewrite Hc, Hb | exact IH].
Qed.

(** C5. N records that each validate, carry one of the eight names and
    have pairwise different start strings, merged into an empty store
    without a store error: reading the store back gives exactly N events,
    and they are, up to the order of the rows, the events constructed
    directly from the records, with the same title and body. *)
Theorem store_round_trip (ws : list json) (s : mstate) :
  distinct_starts ws ->
  Forall (fun w => isWorkoutData dayjs w = true /\
                   exists n, js_get "name" w = Some (JStr n) /\ In n allowedWorkoutNames) ws ->
  mergeData [] ws s -> no_store_error s ->
  exists evs es,
    getCalendarWorkoutEvents dayjs nts (rows s) = Returned evs /\
    length evs = length ws /\
    Forall2 (fun w e => createFromWorkoutData dayjs nts w = Returned (Some e) /\
                        getName e = calcName w /\
                        calcBody dayjs nts w = Returned (getBody e)) ws es /\
    evs ≡ₚ es.
Proof.
  intros Hws Hvalid [Hr Hall] Herr.
  pose proof (merge_into_empty ws s Hws Hr Hall Herr) as Hrows.
  pose proof (direct_events ws Hvalid) as Hdirect.
  exists (omap (direct_event dayjs nts) (rows s)), (omap (direct_event dayjs nts) ws).
  split_and!.
  - apply getCalendarWorkoutEvents_direct.
  - rewrite Hrows. symmetry. eapply Forall2_length, Hdirect.
  - exact Hdirect.
  - by rewrite Hrows.
Qed.

End Merge.

(** ** The theorems at the workouts of the test data *)

Lemma start_key_is_exact_string_witness :
  let s1 := merged [] [walkA] in
  let s2 := merged (rows s1) [hikeB] in
  (start_string walkA = Some "2021-09-26T20:00:00" /\
   start_string hikeB = Some "2021-09-27T08:00:00" /\
   mergeData no_sql_text no_sql_text never_throws [] [walkA] s1 /\ no_store_error s1 /\
   mergeData no_sql_text no_sql_text never_throws (rows s1) [hikeB] s2 /\
   no_store_error s2) /\
  (forall s i w k,
      tasks s !! i = Some (w, AwaitCount) -> start_string w = Some k ->
      (step no_sql_text no_sql_text never_throws s i true
       = Some (set_stage s i w (Settled Seen)) <->
       exists row, row ∈ rows s /\ start_column no_sql_text row = Some k) /\
      (step no_sql_text no_sql_text never_throws s i true
       = Some (set_stage s i w AwaitInsert) <->
       ~ exists row, row ∈ rows s /\ start_column no_sql_text row = Some k)) /\
  ("2021-09-26T20:00:00" <> "2021-09-27T08:00:00" ->
   rows s2 = ([] ++ [walkA; hikeB])%list /\ calls s1 = [0%nat] /\ calls s2 = [0%nat]) /\
  ("2021-09-26T20:00:00" = "2021-09-27T08:00:00" ->
   rows s2 = ([] ++ [walkA])%list /\ calls s1 = [0%nat] /\ calls s2 = []).
Proof.
  cbv zeta.
  assert (Herr1 : no_store_error (merged [] [walkA])).
  { unfold no_store_error. evaluate_tasks. repeat constructor. }
  assert (Herr2 : no_store_error (merged (rows (merged [] [walkA])) [hikeB])).
  { unfold no_store_error. evaluate_tasks. repeat constructor. }
  assert (H1 : mergeData no_sql_text no_sql_text never_throws [] [walkA] (merged [] [walkA]))
    by (split; [apply reach_run | vm_compute; reflexivity]).
  assert (H2 : mergeData no_sql_text no_sql_text never_throws
                         (rows (merged [] [walkA])) [hikeB]
                         (merged (rows (merged [] [walkA])) [hikeB]))
    by (split; [apply reach_run | vm_compute; reflexivity]).
  split; [by split_and!|].
  exact (start_key_is_exact_string no_sql_text no_sql_text never_throws
           [] walkA hikeB _ _ _ _ eq_refl eq_refl eq_refl eq_refl H1 Herr1 H2 Herr2).
Defined.

Lemma store_round_trip_witness :
  let ws := [walkA; hikeB] in
  let s := merged [] ws in
  (distinct_starts ws /\
   mergeData no_sql_text no_sql_text never_throws [] ws s /\ no_store_error s) /\
  exists evs es,
    getCalendarWorkoutEvents iso_reader no_text (rows s) = Returned evs /\
    length evs = length ws /\
    Forall2 (fun w e => createFromWorkoutData iso_reader no_text w = Returned (Some e) /\
                        getName e = calcName w /\
                        calcBody iso_reader no_text w = Returned (getBody e)) ws es /\
    evs ≡ₚ es.
Proof.
  cbv zeta.
  assert (Hws : distinct_starts [walkA; hikeB]).
  { split; [repeat constructor; by eexists | cbn].
    apply NoDup_cons. split; [rewrite list_elem_of_singleton; discriminate|].
    apply NoDup_singleton. }
  assert (H1 : mergeData no_sql_text no_sql_text never_throws [] [walkA; hikeB]
                         (merged [] [walkA; hikeB]))
    by (split; [apply reach_run | vm_compute; reflexivity]).
  assert (Herr : no_store_error (merged [] [walkA; hikeB])).
  { unfold no_store_error. evaluate_tasks. repeat constructor. }
  split; [by split_and!|].
  apply (store_round_trip no_sql_text no_sql_text never_throws iso_reader no_text
           [walkA; hikeB] _ Hws); [| exact H1 | exact Herr].
  repeat constructor; try (vm_compute; reflexivity).
  - exists "Walking". split; [reflexivity | cbn; auto].
  - exists "Hiking". split; [reflexivity | cbn; auto].
Defined.

(** Two records with the same start string in one batch: both count
    queries are answered before either insert runs, so both are inserted
    and both notified. *)
Example same_start_in_one_batch :
  start_string walkA = start_string runA /\
  rows (merged [] [walkA; runA]) = [walkA; runA] /\
  calls (merged [] [walkA; runA]) = [0%nat; 1%nat].
Proof. repeat split; vm_compute; reflexivity. Qed.

(** The scenario of the specification: a Hiking record of fifteen minutes
    merged into an empty store gives one row, one call of the callback,
    and one event titled "Hiking" whose body starts with "15:00" and
    "100 calories". *)
Example hiking_scenario :
  let w := sampleData "Hiking" "2021-09-26T20:00:00" "2021-09-26T20:15:00" [] in
  let s := merged [] [w] in
  rows s = [w] /\ calls s = [0%nat] /\
  getCalendarWorkoutEvents iso_reader no_text (rows s)
  = Returned [ mkEvent (Some (JStr "2021-09-26T20:00:00")) "Hiking"
                 ("15:00" ++ LF ++ "100 calories" ++ LF ++ "1.00 miles" ++ LF ++ LF ++
                  "Pace: 15:00" ++ LF ++ "HR: 120 - 140 bpm" ++ LF) ].
Proof. repeat split; vm_compute; reflexivity. Qed.

(** ** Further properties: construction and validation *)

Section Construction.
Variables (dayjs : string -> option Z) (nts : Q -> string).

Lemma createFromWorkoutData_total (v : json) :
  exists r, createFromWorkoutData dayjs nts v = Returned r.
Proof.
  unfold createFromWorkoutData. destruct (isWorkoutData dayjs v) eqn:Hv; [|eauto].
  destruct (isWorkoutData_name dayjs v Hv) as [n ->].
  destruct (negb _); [eauto|].
  destruct (calcBody_returns dayjs nts v Hv) as [b Hb].
  unfold new_CalendarWorkoutEvent. rewrite Hb. cbn. eauto.
Qed.

(** What a constructed event is made of. *)
Lemma created_event (v : json) (e : CalendarWorkoutEvent) :
  createFromWorkoutData dayjs nts v = Returned (Some e) ->
  isWorkoutData dayjs v = true /\
  (exists n, js_get "name" v = Some (JStr n) /\ js_in n allowedWorkoutNames = true) /\
  e = mkEvent (js_get "start" v) (calcName v) (ev_body e) /\
  calcBody dayjs nts v = Returned (ev_body e).
Proof.
  intros Hc. destruct (isWorkoutData dayjs v) eqn:Hv.
  2:{ rewrite (createFromWorkoutData_invalid dayjs nts v Hv) in Hc. discriminate. }
  destruct (isWorkoutData_name dayjs v Hv) as [n Hn].
  destruct (js_in n allowedWorkoutNames) eqn:Hin.
  2:{ rewrite (createFromWorkoutData_unlisted dayjs nts v n Hn Hin) in Hc. discriminate. }
  destruct (create_passing dayjs nts v n Hv Hn Hin) as (b & Hb & Hc').
  rewrite Hc' in Hc. injection Hc as <-. cbn. split_and!; eauto.
Qed.

(** X1. createFromWorkoutData never throws, whatever value it is given;
    it returns an event exactly when the value validates and its name
    passes the [in] test, and that event carries the record's start, the
    title of calcName and the body of calcBody; otherwise it returns
    null. *)
Theorem createFromWorkoutData_event_iff (v : json) :
  createFromWorkoutData dayjs nts v <> Thrown /\
  (forall e, createFromWorkoutData dayjs nts v = Returned (Some e) <->
             isWorkoutData dayjs v = true /\
             (exists n, js_get "name" v = Some (JStr n) /\
                        js_in n allowedWorkoutNames = true) /\
             e = mkEvent (js_get "start" v) (calcName v) (getBody e) /\
             calcBody dayjs nts v = Returned (getBody e)) /\
  (createFromWorkoutData dayjs nts v = Returned None <->
   isWorkoutData dayjs v = false \/
   exists n, js_get "name" v = Some (JStr n) /\ js_in n allowedWorkoutNames = false).
Proof.
  destruct (createFromWorkoutData_total v) as [r Hr].
  split; [congruence|].
  destruct (isWorkoutData dayjs v) eqn:Hv.
  - destruct (isWorkoutData_name dayjs v Hv) as [n Hn].
    destruct (js_in n allowedWorkoutNames) eqn:Hin.
    + destruct (create_passing dayjs nts v n Hv Hn Hin) as (b & Hb & Hc). split.
      * intros e. rewrite Hc. split.
        -- intros [= <-]. cbn. split_and!; eauto.
        -- intros (_ & _ & -> & Hb'). rewrite Hb in Hb'. injection Hb' as <-. done.
      * rewrite Hc. split; [discriminate|].
        intros [|(n' & Hn' & Hin')]; [discriminate|]. congruence.
    + pose proof (createFromWorkoutData_unlisted dayjs nts v n Hn Hin) as Hc. split.
      * intros e. rewrite Hc. split; [discriminate|].
        intros (_ & (n' & Hn' & Hin') & _). congruence.
      * rewrite Hc. split; [eauto|done].
  - pose proof (createFromWorkoutData_invalid dayjs nts v Hv) as Hc. split.
    + intros e. rewrite Hc. split; [discriminate | intros [? _]; discriminate].
    + rewrite Hc. split; [auto | done].
Qed.

Lemma assoc_other {A} (k k' : string) (x : A) (kvs : list (string * A)) :
  k <> k' -> assoc k ((k', x) :: kvs) = assoc k kvs.
Proof. intros H. cbn. by destruct (String.eqb_spec k k'). Qed.

(** X2. The validator does not look at properties it does not know: a
    further property of a record whose key is none of the ten of the
    schema leaves the answer of isWorkoutData as it was, accepted or
    rejected, and a further property of a quantity group beside [qty]
    leaves the validation of the group as it was. *)
Theorem isWorkoutData_ignores_unknown_properties
        (k : string) (x : json) (kvs : list (string * json))
        (g : string) (y : json) (gkvs : list (string * json)) :
  (~ In k schema_keys ->
   isWorkoutData dayjs (JObj ((k, x) :: kvs)) = isWorkoutData dayjs (JObj kvs)) /\
  (g <> "qty" ->
   validate dayjs qtySchema (JObj ((g, y) :: gkvs)) = validate dayjs qtySchema (JObj gkvs)).
Proof.
  split.
  - intros Hk. rewrite !isWorkoutData_shape.
    unfold required_shape, indoor_ok, has_string, has_timestamp, has_qty, js_get.
    rewrite !assoc_other; [reflexivity | ..]; intros <-; apply Hk; cbn; auto 12.
  - intros Hq. cbn -[assoc]. rewrite !assoc_other by congruence. reflexivity.
Qed.

End Construction.

Lemma isWorkoutData_ignores_unknown_properties_witness :
  (isWorkoutData iso_reader walkA = true /\
   isWorkoutData iso_reader
     (sampleData "Walking" "2021-09-26T20:00:00" "2021-09-26T20:15:00"
                 [("location", JStr "Park")])
   = isWorkoutData iso_reader walkA) /\
  (validate iso_reader qtySchema (JObj [("qty", JNum 100)]) = true /\
   validate iso_reader qtySchema (JObj [("units", JStr "kcal"); ("qty", JNum 100)])
   = validate iso_reader qtySchema (JObj [("qty", JNum 100)])).
Proof.
  destruct (isWorkoutData_ignores_unknown_properties
              iso_reader
              "location" (JStr "Park")
              [ ("name", JStr "Walking"); ("start", JStr "2021-09-26T20:00:00");
                ("end", JStr "2021-09-26T20:15:00");
                ("activeEnergy", JObj [("qty", JNum 100)]);
                ("stepCadence", JObj [("qty", JNum 30)]);
                ("distance", JObj [("qty", JNum 1)]);
                ("speed", JObj [("qty", JNum 4)]);
                ("avgHeartRate", JObj [("qty", JNum 120)]);
                ("maxHeartRate", JObj [("qty", JNum 140)]) ]
              "units" (JStr "kcal") [("qty", JNum 100)]) as [Hrecord Hgroup].
  split; split.
  - vm_compute. reflexivity.
  - apply Hrecord. cbn. intuition discriminate.
  - vm_compute. reflexivity.
  - apply Hgroup. discriminate.
Defined.

(** ** Further properties: the store and mergeData *)

Lemma length_omap_le {A B} (f : A -> option B) (l : list A) :
  (length (omap f l) <= length l)%nat.
Proof. induction l as [|x l IH]; cbn; [lia|]. destruct (f x); cbn; lia. Qed.

Lemma length_filter_impl {A} (P Q : A -> Prop)
      `{!forall x, Decision (P x)} `{!forall x, Decision (Q x)} (l : list A) :
  (forall x, P x -> Q x) -> (length (filter P l) <= length (filter Q l))%nat.
Proof.
  intros Himp. induction l as [|x l IH]; [done|]. rewrite !filter_cons.
  destruct (decide (P x)) as [HP|HP], (decide (Q x)) as [HQ|HQ]; cbn; try lia.
  by destruct HQ; apply Himp.
Qed.


Section MergeMore.
Variables (sqlite_text bound_text : json -> string) (throws : json -> bool).

Local Abbreviation step := (step sqlite_text bound_text throws).
Local Abbreviation reach := (reach sqlite_text bound_text throws).
Local Abbreviation moves := (moves sqlite_text bound_text throws).
Local Abbreviation count_start := (count_start sqlite_text).
Local Abbreviation bound_start := (bound_start bound_text).
Local Abbreviation mergeData := (mergeData sqlite_text bound_text throws).
Local Abbreviation reach_tasks := (reach_tasks sqlite_text bound_text throws).
Local Abbreviation reach_rows := (reach_rows sqlite_text bound_text throws).
Local Abbreviation reach_calls := (reach_calls sqlite_text bound_text throws).
Local Abbreviation step_moves := (step_moves sqlite_text bound_text throws).

(** X7. With an empty batch there is nothing to resume: the call
    resolves at once, with the table as it was and no call of the
    callback. *)
Theorem mergeData_empty_batch (db : table) (s : mstate) :
  mergeData db [] s <-> s = mkState db [] [].
Proof.
  split.
  - intros [Hr _]. remember (mergeData_start db []) as s0 eqn:E.
    induction Hr as [s|s i ok s' s'' _ IH Hstep]; [by subst|].
    rewrite (IH E) in Hstep. unfold step in Hstep. cbn in Hstep. discriminate.
  - intros ->. split; [apply reach_refl | reflexivity].
Qed.

(** The records the callback was called on are those of the elements
    whose stage says so. *)
Lemma reach_called_records (db : table) (ws : list json) (s : mstate) :
  reach (mergeData_start db ws) s ->
  omap (fun i => ws !! i) (calls s)
  ≡ₚ fst <$> filter (fun t => called (snd t) = true) (tasks s) /\
  length (calls s) = length (filter (fun t => called (snd t) = true) (tasks s)).
Proof.
  remember (mergeData_start db ws) as s0 eqn:E.
  induction 1 as [s|s i ok s' s'' Hr IH Hstep].
  - subst. cbn. clear. induction ws as [|w ws IH]; [done|].
    rewrite fmap_cons, filter_cons_False; [exact IH | cbn; done].
  - destruct (IH E) as [IH1 IH2]. subst s.
    pose proof (reach_tasks db ws s' Hr) as Hts.
    apply step_moves in Hstep as (w & st & st' & c & Hi & Hm & Ht & Hc).
    apply moves_called in Hm as [Hst Hst']. rewrite Ht, Hc.
    assert (Hwi : ws !! i = Some w) by (by rewrite <- Hts, list_lookup_fmap, Hi).
    destruct c.
    + assert (Hg : fst <$> filter (fun t : json * stage => called t.2 = true)
                                  (<[i := (w, st')]> (tasks s'))
                   ≡ₚ w :: (fst <$> filter (fun t => called t.2 = true) (tasks s'))).
      { apply (filter_insert_gain fst _ _ i (w, st) (w, st')); cbn; [done | by rewrite Hst | done]. }
      split.
      * rewrite omap_app. cbn. rewrite Hwi. cbn. rewrite Hg.
        rewrite <- Permutation_cons_append. by rewrite IH1.
      * apply Permutation_length in Hg. cbn in Hg. rewrite !length_fmap in Hg.
        rewrite length_app, Hg. cbn. lia.
    + assert (Hk : fst <$> filter (fun t : json * stage => called t.2 = true)
                                  (<[i := (w, st')]> (tasks s'))
                   = fst <$> filter (fun t => called t.2 = true) (tasks s')).
      { apply (filter_insert_keep fst _ _ i (w, st) (w, st')); cbn; [done | done |].
        by rewrite Hst, Hst'. }
      split.
      * by rewrite Hk.
      * apply (f_equal length) in Hk. rewrite !length_fmap in Hk. by rewrite Hk.
Qed.

Lemma reach_appended (db : table) (ws : list json) (s : mstate) :
  reach (mergeData_start db ws) s ->
  exists ins,
    rows s = (db ++ ins)%list /\
    (forall w, w ∈ ins -> w ∈ ws) /\
    (length (calls s) <= length ins)%nat /\
    (length ins <= length ws)%nat.
Proof.
  intros Hr. destruct (reach_rows db ws s Hr) as (ins & Hrows & Hins).
  pose proof (reach_tasks db ws s Hr) as Hts.
  exists ins. split_and!; [done | | |].
  - intros w Hw. rewrite Hins in Hw. unfold inserted in Hw.
    apply list_elem_of_fmap in Hw as ([w' st] & -> & Hin).
    apply list_elem_of_filter in Hin as [_ Hin]. rewrite <- Hts.
    by apply (list_elem_of_fmap_2' fst _ (w', st)).
  - destruct (reach_called_records db ws s Hr) as [_ ->].
    rewrite (Permutation_length Hins). unfold inserted. rewrite length_fmap.
    apply length_filter_impl. intros [w st]. cbn. by destruct st as [| | |[]].
  - rewrite (Permutation_length Hins). unfold inserted. rewrite length_fmap.
    rewrite <- Hts, length_fmap. apply length_filter.
Qed.

(** X4. mergeData only ever appends: in every state of a call the table
    is the table the call started from followed by rows that are records
    of the batch, at most one per element; and the callback has never
    been called more often than rows were added. *)
Theorem mergeData_only_appends (db : table) (ws : list json) (s : mstate) :
  reach (mergeData_start db ws) s ->
  exists ins,
    rows s = (db ++ ins)%list /\
    (forall w, w ∈ ins -> w ∈ ws) /\
    (length (calls s) <= length ins)%nat /\
    (length ins <= length ws)%nat.
Proof. apply reach_appended. Qed.

(** X5. A null element of the batch stops at the check, where reading
    its [start] throws: it is never inserted and the callback is never
    called on it. *)
Theorem mergeData_null_element (db : table) (ws : list json) (s : mstate) (j : nat) :
  reach (mergeData_start db ws) s ->
  ws !! j = Some JNull ->
  exists st, tasks s !! j = Some (JNull, st) /\
             (st = AwaitCount \/ st = Settled CheckFailed) /\
             count_occ Nat.eq_dec (calls s) j = 0%nat.
Proof.
  intros Hr Hj.
  assert (G : exists st, tasks s !! j = Some (JNull, st) /\
                         (st = AwaitCount \/ st = Settled CheckFailed)).
  { remember (mergeData_start db ws) as s0 eqn:E.
    induction Hr as [s|s i ok s' s'' Hr IH Hstep].
    - subst. cbn. rewrite list_lookup_fmap, Hj. cbn. eauto.
    - destruct (IH E) as (st & Hst & Hcase).
      apply step_moves in Hstep as (w0 & st0 & st0' & c & Hi0 & Hm & Ht & _).
      rewrite Ht. destruct (decide (i = j)) as [->|Hne].
      + rewrite list_lookup_insert_eq by (eapply lookup_lt_Some; eauto).
        rewrite Hst in Hi0. injection Hi0 as <- <-.
        destruct Hcase as [->| ->]; inversion Hm; subst; try discriminate; eauto.
      + rewrite list_lookup_insert_ne by done. eauto. }
  destruct G as (st & Hst & Hcase). exists st. split_and!; try done.
  rewrite (reach_calls db ws s Hr j), Hst. by destruct Hcase as [->| ->].
Qed.

Lemma count_start_null (rows : table) : count_start rows None = 0%nat.
Proof.
  unfold count_start. induction rows as [|r rows IH]; [done|].
  rewrite filter_cons_False; [exact IH|]. unfold start_eq.
  by destruct (start_column sqlite_text r).
Qed.

(** A batch of one record whose start binds NULL: the count is always 0,
    so it is inserted and notified. *)
Lemma merge_single_unmatched (db : table) (w : json) (p : option json) (s : mstate) :
  read_start w = Returned p -> bound_start p = None ->
  mergeData db [w] s -> no_store_error s ->
  rows s = (db ++ [w])%list /\ calls s = [0%nat].
Proof.
  intros Hp Hb [Hr Hall] Herr.
  destruct (task_of_record sqlite_text bound_text throws db [w] s 0 w Hr eq_refl) as [st Hst].
  pose proof (reach_tasks db [w] s Hr) as Hts.
  destruct (tasks s) as [|t [|t' ts]] eqn:Et; try discriminate.
  injection Hst as ->.
  assert (Hst : called st = true /\ has_row st = true).
  { assert (Hs : exists r, st = Settled r).
    { eapply (settled_lookup s 0 w st Hall). by rewrite Et. }
    destruct Hs as [r ->].
    unfold no_store_error in Herr. rewrite Et in Herr.
    apply Forall_inv in Herr. cbn in Herr.
    destruct r; try discriminate; try done.
    destruct (reach_seen sqlite_text bound_text throws db [w] s Hr 0 w) as (p' & Hp' & Hc);
      [by rewrite Et|].
    rewrite Hp in Hp'. injection Hp' as <-. rewrite Hb, count_start_null in Hc. done. }
  destruct Hst as [Hcd Hrow].
  destruct (reach_rows db [w] s Hr) as (ins & Hrows & Hins).
  rewrite Et in Hins. unfold inserted in Hins. rewrite filter_cons in Hins.
  cbn [snd] in Hins. rewrite Hrow in Hins. cbn in Hins.
  apply Permutation_singleton_r in Hins. split; [by rewrite Hrows, Hins|].
  replace [0%nat] with (if called st then [0%nat] else []) by (by rewrite Hcd).
  apply count_occ_single. intros j. rewrite (reach_calls db [w] s Hr j), Et.
  destruct j as [|[|j]]; done.
Qed.

(** X6. A record without a start, or with a null one, is never taken for
    seen: the parameter bound is NULL and [start = NULL] holds for no
    row.  Merged twice, it is inserted twice and the callback is called
    on it both times. *)
Theorem mergeData_missing_start_not_deduplicated
        (db : table) (w : json) (s1 s2 : mstate) :
  w <> JNull ->
  js_get "start" w = None \/ js_get "start" w = Some JNull ->
  mergeData db [w] s1 -> no_store_error s1 ->
  mergeData (rows s1) [w] s2 -> no_store_error s2 ->
  rows s2 = (db ++ [w; w])%list /\
  calls s1 = [0%nat] /\ calls s2 = [0%nat].
Proof.
  intros Hnull Hstart H1 Herr1 H2 Herr2.
  assert (Hread : read_start w = Returned (js_get "start" w)) by (by destruct w).
  assert (Hb : bound_start (js_get "start" w) = None)
    by (by destruct Hstart as [->| ->]).
  destruct (merge_single_unmatched db w _ s1 Hread Hb H1 Herr1) as [Hr1 Hc1].
  destruct (merge_single_unmatched (rows s1) w _ s2 Hread Hb H2 Herr2) as [Hr2 Hc2].
  split_and!; try done. by rewrite Hr2, Hr1, <- app_assoc.
Qed.

End MergeMore.

(** ** Further properties: the request body and the calendar *)

Lemma validatePostedWorkoutDataBody_shape (aBody : option json) :
  validatePostedWorkoutDataBody aBody
  = Returned match aBody with
             | Some (JObj kvs) =>
                 match assoc "data" kvs with
                 | Some (JObj kvs') =>
                     match assoc "workouts" kvs' with
                     | Some (JArr _) => true
                     | _ => false
                     end
                 | _ => false
                 end
             | _ => false
             end.
Proof.
  unfold validatePostedWorkoutDataBody.
  destruct aBody as [[| b | q | str | xs | kvs]|]; cbn; try reflexivity;
    try (destruct (negb _); reflexivity).
  destruct (assoc "data" kvs) as [[| b | q | str | xs | kvs']|]; cbn; try reflexivity;
    try (destruct (negb _); reflexivity).
  destruct (assoc "workouts" kvs') as [[]|]; reflexivity.
Qed.

(** X8. validatePostedWorkoutDataBody never throws, not on an undefined
    or null body either, and answers true exactly for an object whose
    [data] is an object whose [workouts] is an array. *)
Theorem validatePostedWorkoutDataBody_true_iff (aBody : option json) :
  validatePostedWorkoutDataBody aBody <> Thrown /\
  (validatePostedWorkoutDataBody aBody = Returned true <->
   exists kvs kvs' ws,
     aBody = Some (JObj kvs) /\ assoc "data" kvs = Some (JObj kvs') /\
     assoc "workouts" kvs' = Some (JArr ws)).
Proof.
  rewrite validatePostedWorkoutDataBody_shape. split; [discriminate|]. split.
  - intros H. destruct aBody as [[| | | | | kvs]|]; try discriminate.
    destruct (assoc "data" kvs) as [[| | | | | kvs']|] eqn:Hd; try discriminate.
    destruct (assoc "workouts" kvs') as [[| | | | ws | ]|] eqn:Hw; try discriminate.
    by exists kvs, kvs', ws.
  - intros (kvs & kvs' & ws & -> & -> & ->). reflexivity.
Qed.

Section Calendar.
Variables (dayjs : string -> option Z) (nts : Q -> string) (startOf_day : Z -> Z).

Local Abbreviation onNewWorkout := (onNewWorkout dayjs nts startOf_day).
Local Abbreviation addToCalendar := (addToCalendar dayjs startOf_day).
Local Abbreviation start_calendar := (start_calendar dayjs nts startOf_day).
Local Abbreviation calendar_after := (calendar_after dayjs nts startOf_day).

Lemma created_start (v : json) (e : CalendarWorkoutEvent) :
  createFromWorkoutData dayjs nts v = Returned (Some e) ->
  exists s t, ev_start e = Some (JStr s) /\ dayjs s = Some t.
Proof.
  intros Hc.
  destruct (created_event dayjs nts v e Hc) as (Hv & _ & -> & _). cbn.
  rewrite isWorkoutData_shape in Hv. apply andb_prop in Hv as [Hv _].
  unfold required_shape in Hv. repeat (apply andb_prop in Hv as [Hv ?]).
  match goal with H : has_timestamp _ "start" _ = true |- _ => rename H into Hs end.
  unfold has_timestamp, dayjs_isValid in Hs.
  destruct (js_get "start" v) as [[]|]; try discriminate.
  destruct (dayjs s) eqn:E; [eauto | discriminate].
Qed.

(** X9. onNewWorkout never throws and never touches the events already
    in the calendar: it adds nothing when createFromWorkoutData gives
    null, and otherwise exactly one all-day event at the end, on the day
    of the record's start, with the event's title as summary and its body
    as description. *)
Theorem onNewWorkout_appends (aWorkout : json) (cal : list ICalEvent) :
  (createFromWorkoutData dayjs nts aWorkout = Returned None /\
   onNewWorkout aWorkout cal = Returned cal) \/
  (exists e s t,
      createFromWorkoutData dayjs nts aWorkout = Returned (Some e) /\
      js_get "start" aWorkout = Some (JStr s) /\ dayjs s = Some t /\
      onNewWorkout aWorkout cal
      = Returned (cal ++ [mkICalEvent (Some (startOf_day t)) true (getName e) (getBody e)])%list).
Proof.
  destruct (createFromWorkoutData_total dayjs nts aWorkout) as [[e|] Hc].
  - right. destruct (created_start aWorkout e Hc) as (s & t & Hs & Ht).
    exists e, s, t. split_and!; try done.
    + destruct (created_event dayjs nts aWorkout e Hc) as (_ & _ & He & _).
      rewrite He in Hs. exact Hs.
    + unfold onNewWorkout, addToCalendar, ical_of. rewrite Hc. cbn. rewrite Hs, Ht. done.
  - left. split; [done|]. unfold onNewWorkout. by rewrite Hc.
Qed.

Lemma foldl_addToCalendar (evs : list CalendarWorkoutEvent) (cal : list ICalEvent) :
  foldl (fun cal aEvent => addToCalendar aEvent cal) cal evs
  = (cal ++ (ical_of dayjs startOf_day <$> evs))%list.
Proof.
  revert cal. induction evs as [|e evs IH]; intros cal; cbn; [by rewrite app_nil_r|].
  rewrite IH. unfold addToCalendar. by rewrite <- app_assoc.
Qed.

Lemma start_calendar_entries (db : table) (cal : list ICalEvent) :
  start_calendar db cal
  = Returned (cal ++ (ical_of dayjs startOf_day <$> omap (direct_event dayjs nts) db))%list.
Proof.
  unfold start_calendar. rewrite getCalendarWorkoutEvents_direct. cbn.
  by rewrite foldl_addToCalendar.
Qed.

Lemma onNewWorkout_entries (w : json) (cal : list ICalEvent) :
  onNewWorkout w cal
  = Returned (cal ++ (ical_of dayjs startOf_day <$> option_list (direct_event dayjs nts w)))%list.
Proof.
  unfold onNewWorkout, direct_event.
  destruct (createFromWorkoutData_total dayjs nts w) as [[e|] ->]; cbn; [done|].
  by rewrite app_nil_r.
Qed.

Lemma onNewWorkout_does_not_throw (w : json) :
  onNewWorkout_throws dayjs nts startOf_day w = false.
Proof. unfold onNewWorkout_throws. by rewrite onNewWorkout_entries. Qed.

Lemma calendar_after_entries (ws : list json) (calls : list nat) (cal : list ICalEvent) :
  calendar_after ws calls cal
  = (cal ++ (ical_of dayjs startOf_day
               <$> omap (direct_event dayjs nts) (omap (fun i => ws !! i) calls)))%list.
Proof.
  unfold calendar_after. revert cal.
  induction calls as [|i calls IH]; intros cal; cbn; [by rewrite app_nil_r|].
  rewrite IH. destruct (ws !! i) as [w|]; cbn; [|done].
  rewrite onNewWorkout_entries. rewrite <- app_assoc. f_equal.
  destruct (direct_event dayjs nts w); done.
Qed.

Lemma filter_agree {A} (P Q : A -> Prop)
      `{!forall x, Decision (P x)} `{!forall x, Decision (Q x)} (l : list A) :
  Forall (fun x => P x <-> Q x) l -> filter P l = filter Q l.
Proof.
  induction 1 as [|x l Hx _ IH]; [done|]. rewrite !filter_cons, IH.
  destruct (decide (P x)), (decide (Q x)); tauto.
Qed.

Variables (sqlite_text bound_text : json -> string).

Local Abbreviation mergeData :=
  (mergeData sqlite_text bound_text (onNewWorkout_throws dayjs nts startOf_day)).

(** After a call that finished without a store error, the records the
    callback was called on are the rows added, up to order. *)
Lemma called_are_inserted (db : table) (ws : list json) (s : mstate) :
  mergeData db ws s -> no_store_error s ->
  exists ins, rows s = (db ++ ins)%list /\
              ins ≡ₚ omap (fun i => ws !! i) (calls s) /\
              (forall w, w ∈ ins -> w ∈ ws).
Proof.
  intros [Hr Hall] Herr.
  destruct (reach_appended _ _ _ db ws s Hr) as (ins & Hrows & Hsub & _).
  exists ins. split_and!; try done.
  destruct (reach_rows _ _ _ db ws s Hr) as (ins' & Hrows' & Hins).
  rewrite Hrows in Hrows'. apply app_inv_head in Hrows'. subst ins'.
  destruct (reach_called_records _ _ _ db ws s Hr) as [-> _].
  rewrite Hins. unfold inserted.
  rewrite (filter_agree (fun t : json * stage => has_row t.2 = true)
                        (fun t : json * stage => called t.2 = true)); [done|].
  apply Forall_lookup. intros j [w st] Hj. cbn.
  destruct (settled_lookup s j w st Hall Hj) as [r ->].
  unfold no_store_error in Herr. rewrite Forall_lookup in Herr.
  specialize (Herr j _ Hj). cbn in Herr. by destruct r.
Qed.

(** X11. The calendar kept up by the callbacks agrees with the one a
    restart builds: when a call of mergeData made by onPostWorkoutData
    finished without a store error, the events the callbacks added to the
    calendar loaded at startup are, up to order, the events that loading
    the store again adds after it. *)
Theorem restart_matches_live (db : table) (ws : list json) (s : mstate)
        (cal0 cal : list ICalEvent) :
  mergeData db ws s -> no_store_error s ->
  start_calendar db cal0 = Returned cal ->
  exists reloaded added,
    start_calendar (rows s) cal0 = Returned (cal ++ reloaded)%list /\
    calendar_after ws (calls s) cal = (cal ++ added)%list /\
    reloaded ≡ₚ added.
Proof.
  intros Hm Herr Hcal. destruct (called_are_inserted db ws s Hm Herr) as (ins & -> & Hins & _).
  rewrite start_calendar_entries in Hcal. injection Hcal as <-.
  exists (ical_of dayjs startOf_day <$> omap (direct_event dayjs nts) ins),
         (ical_of dayjs startOf_day
            <$> omap (direct_event dayjs nts) (omap (fun i => ws !! i) (calls s))).
  split_and!.
  - by rewrite start_calendar_entries, omap_app, fmap_app, app_assoc.
  - apply calendar_after_entries.
  - by rewrite Hins.
Qed.

(** X10. A POST to /workoutData answers 403, 400 or 200.  It answers 403
    exactly when the secret header is not there with the secret value,
    and then changes nothing; 400 leaves the store and the calendar as
    they were; and with 200 the store and the calendar are the ones
    before followed by what was added: rows that are workouts of the
    body, and at most one event per row added. *)
Theorem onPostWorkoutData_effects (config : IWorkoutsToIcalAppConfig)
        (headers : list (string * param)) (body : json) (a a' : app) (code : Z) :
  onPostWorkoutData dayjs nts startOf_day sqlite_text bound_text config headers body a
                    code a' ->
  (code = 403 <->
   assoc (headerSecretKey config) headers <> Some (PStr (headerSecretVal config))) /\
  ((code = 403 /\ a' = a) \/
   (code = 400 /\ dataFile a' = dataFile a /\ calendar a' = calendar a /\
    posted_workouts body = None) \/
   (code = 200 /\
    exists ws ins evs,
      posted_workouts body = Some ws /\
      dataFile a' = (dataFile a ++ ins)%list /\ (forall w, w ∈ ins -> w ∈ ws) /\
      calendar a' = (calendar a ++ evs)%list /\ (length evs <= length ins)%nat)).
Proof.
  assert (Hh : validatePostedWorkoutDataHeaders config headers = true <->
               assoc (headerSecretKey config) headers = Some (PStr (headerSecretVal config))).
  { unfold validatePostedWorkoutDataHeaders.
    destruct (assoc _ headers) as [[v|]|]; cbn; [|done|done].
    destruct (String.eqb_spec v (headerSecretVal config)); cbn; split; congruence. }
  destruct 1 as [Hbad | Hok Hbody | ws s Hok Hbody Hws [Hr Hall]].
  - split.
    + split; [intros _ | done]. rewrite <- Hh. congruence.
    + by left.
  - split.
    + split; [discriminate|]. intros Hn. by apply Hh in Hok.
    + right; left. split_and!; try done.
      rewrite validatePostedWorkoutDataBody_shape in Hbody. injection Hbody as Hbody.
      unfold posted_workouts, js_get. destruct body; try done.
      destruct (assoc "data" kvs) as [[]|]; try done.
      destruct (assoc "workouts" kvs0) as [[]|]; done.
  - split.
    + split; [discriminate|]. intros Hn. by apply Hh in Hok.
    + right; right. split; [done|].
      destruct (reach_appended _ _ _ (dataFile a) ws s Hr)
        as (ins & Hrows & Hsub & Hlen & _).
      exists ws, ins, (ical_of dayjs startOf_day
                         <$> omap (direct_event dayjs nts) (omap (fun i => ws !! i) (calls s))).
      cbn. split_and!; try done.
      * apply calendar_after_entries.
      * rewrite length_fmap.
        etrans; [apply length_omap_le|]. etrans; [apply length_omap_le|]. done.
Qed.

End Calendar.

(** ** Further properties: the texts of the body *)

Lemma below_days_small (ms : Z) :
  - MILLISECONDS_A_DAY < ms < MILLISECONDS_A_DAY -> below_days ms = ms.
Proof.
  unfold below_days.
  change MILLISECONDS_A_YEAR with 31536000000.
  change MILLISECONDS_A_MONTH with 2628000000.
  change MILLISECONDS_A_DAY with 86400000.
  intros H. Z.quot_rem_to_equations. lia.
Qed.

Lemma pad2_length (n : Z) : 0 <= n < 100 -> String.length (pad2 n) = 2%nat.
Proof.
  intros Hn.
  assert (H : forallb (fun k => (String.length (pad2 (Z.of_nat k)) =? 2)%nat) (seq 0 100) = true)
    by (vm_compute; reflexivity).
  rewrite forallb_forall in H. specialize (H (Z.to_nat n)).
  rewrite Z2Nat.id in H by lia. apply Nat.eqb_eq, H, in_seq. lia.
Qed.

(** X12. For a duration from 0 up to one day the text reads back as the
    duration cut to whole seconds: hours below 24, minutes and seconds
    below 60, each written with two digits, the hours left out when they
    are 0. *)
Theorem getDurationString_reads_back (ms : Z) :
  0 <= ms < MILLISECONDS_A_DAY ->
  let h := hours ms in
  let m := minutes ms in
  let sec := seconds ms in
  0 <= h < 24 /\ 0 <= m < 60 /\ 0 <= sec < 60 /\
  ms = ((h * 60 + m) * 60 + sec) * 1000 + ms mod 1000 /\
  getDurationString (Some ms)
  = (if h =? 0 then "" else pad2 h ++ ":") ++ pad2 m ++ ":" ++ pad2 sec /\
  String.length (pad2 h) = 2%nat /\ String.length (pad2 m) = 2%nat /\
  String.length (pad2 sec) = 2%nat.
Proof.
  intros Hms. cbv zeta.
  assert (E : below_days ms = ms) by (apply below_days_small; lia).
  unfold getDurationString, format_HHmmss, format_mmss, hours, minutes, seconds.
  rewrite E.
  change MILLISECONDS_A_DAY with 86400000 in Hms.
  change MILLISECONDS_A_HOUR with 3600000.
  change MILLISECONDS_A_MINUTE with 60000.
  change MILLISECONDS_A_SECOND with 1000.
  assert (Hh : 0 <= ms ÷ 3600000 < 24) by (Z.quot_rem_to_equations; lia).
  assert (Hm : 0 <= Z.rem ms 3600000 ÷ 60000 < 60) by (Z.quot_rem_to_equations; lia).
  assert (Hs : 0 <= Z.rem (Z.rem ms 3600000) 60000 ÷ 1000 < 60)
    by (Z.quot_rem_to_equations; lia).
  split_and!; try lia; try (apply pad2_length; lia).
  - Z.to_euclidean_division_equations. lia.
  - destruct (Z.eqb_spec (ms ÷ 3600000) 0) as [->|Hne]; [reflexivity|].
    destruct (Z.leb_spec 1 (ms ÷ 3600000)); [by rewrite append_assoc | lia].
Qed.

Lemma getDurationString_reads_back_witness :
  (0 <= 5025000 < MILLISECONDS_A_DAY) /\
  getDurationString (Some 5025000) = "01:23:45".
Proof.
  assert (H : 0 <= 5025000 < MILLISECONDS_A_DAY)
    by (change MILLISECONDS_A_DAY with 86400000; lia).
  split; [exact H|].
  destruct (getDurationString_reads_back 5025000 H) as (_ & _ & _ & _ & -> & _).
  reflexivity.
Defined.

(** X13. A duration below one hour is written mm:ss, and so is every
    negative one, whatever its length: when the end precedes the start
    the hours are never shown. *)
Theorem getDurationString_below_an_hour (ms : Z) :
  ms < MILLISECONDS_A_HOUR ->
  getDurationString (Some ms) = format_mmss (Some ms).
Proof.
  intros Hms. unfold getDurationString.
  assert (H : hours ms < 1); [|by destruct (Z.leb_spec 1 (hours ms)); [lia|]].
  unfold hours, below_days.
  change MILLISECONDS_A_YEAR with 31536000000.
  change MILLISECONDS_A_MONTH with 2628000000.
  change MILLISECONDS_A_DAY with 86400000.
  change MILLISECONDS_A_HOUR with 3600000 in *.
  Z.quot_rem_to_equations. lia.
Qed.

Lemma getDurationString_below_an_hour_witness :
  (-7200000 < MILLISECONDS_A_HOUR) /\
  getDurationString (Some (-7200000)) = "00:00".
Proof.
  assert (H : -7200000 < MILLISECONDS_A_HOUR) by reflexivity.
  split; [exact H|]. rewrite (getDurationString_below_an_hour _ H). reflexivity.
Defined.

Lemma prefix_append (n b : string) : String.prefix n (n ++ b) = true.
Proof.
  induction n as [|c n IH]; [by destruct b|].
  change (String.prefix (String c n) (String c (n ++ b)) = true).
  cbn [String.prefix]. destruct (ascii_dec c c); [exact IH | done].
Qed.

Lemma contains_here (n b : string) : contains n (n ++ b) = true.
Proof.
  assert (U : forall h, contains n h
                        = String.prefix n h ||
                          match h with
                          | EmptyString => false
                          | String _ rest => contains n rest
                          end) by (by intros []).
  rewrite U, prefix_append. reflexivity.
Qed.

Lemma contains_later (n a b : string) : contains n b = true -> contains n (a ++ b) = true.
Proof.
  intros H. induction a as [|c a IH]; [exact H|].
  change (String c a ++ b) with (String c (a ++ b)). cbn. rewrite IH. apply orb_true_r.
Qed.

Lemma validated_quantities dayjs (v : json) :
  isWorkoutData dayjs v = true ->
  exists e c d sp a m,
    qty "activeEnergy" v = Returned e /\ qty "stepCadence" v = Returned c /\
    qty "distance" v = Returned d /\ qty "speed" v = Returned sp /\
    qty "avgHeartRate" v = Returned a /\ qty "maxHeartRate" v = Returned m.
Proof.
  rewrite isWorkoutData_shape. intros H. apply andb_prop in H as [H _].
  apply required_shape_fields in H as [_ Hq].
  repeat match type of Hq with
         | Forall _ (_ :: _) => apply Forall_cons in Hq as [?%has_qty_returns Hq]
         end.
  repeat match goal with H : exists q, _ |- _ => destruct H as [? H] end.
  eauto 12.
Qed.

(** X14. The body of a validated record always has its calories line and
    its heart-rate line; for "Elliptical" it has a cadence line, and for
    every other name a miles line and a pace line. *)
Theorem calcBody_mentions dayjs nts (v : json) :
  isWorkoutData dayjs v = true ->
  exists b,
    calcBody dayjs nts v = Returned b /\
    contains " calories" b = true /\ contains "HR: " b = true /\
    contains " bpm" b = true /\
    (if strict_eq_string (js_get "name" v) "Elliptical"
     then contains "Cadence: " b = true /\ contains " spm" b = true
     else contains " miles" b = true /\ contains "Pace: " b = true).
Proof.
  intros Hv.
  destruct (validated_quantities dayjs v Hv) as (e & c & d & sp & a & m & He & Hc & Hd & Hsp & Ha & Hm).
  eexists. split; [exact (calcBody_lines dayjs nts v e c d sp a m He Hc Hd Hsp Ha Hm)|].
  destruct (strict_eq_string _ _); rewrite ?append_assoc;
    repeat split;
    repeat first [ apply contains_here | apply contains_later ].
Qed.

Lemma calcBody_mentions_witness :
  exists b,
    calcBody iso_reader no_text walkA = Returned b /\
    contains " calories" b = true /\ contains "HR: " b = true /\
    contains " bpm" b = true /\
    (if strict_eq_string (js_get "name" walkA) "Elliptical"
     then contains "Cadence: " b = true /\ contains " spm" b = true
     else contains " miles" b = true /\ contains "Pace: " b = true).
Proof. apply (calcBody_mentions iso_reader no_text walkA). vm_compute. reflexivity. Defined.

(** X15. The pace is [1 / speed] without a guard: for a validated record
    that is not "Elliptical" and whose speed is 0, the quotient is not
    finite and the pace line reads "Pace: NaN:NaN". *)
Theorem calcBody_zero_speed dayjs nts (v : json) (sp : Q) :
  isWorkoutData dayjs v = true ->
  strict_eq_string (js_get "name" v) "Elliptical" = false ->
  qty "speed" v = Returned sp -> (sp == 0)%Q ->
  exists b, calcBody dayjs nts v = Returned b /\ contains "Pace: NaN:NaN" b = true.
Proof.
  intros Hv Hname Hsp H0.
  destruct (validated_quantities dayjs v Hv) as (e & c & d & sp' & a & m & He & Hc & Hd & Hsp' & Ha & Hm).
  rewrite Hsp in Hsp'. injection Hsp' as <-.
  eexists. split; [exact (calcBody_lines dayjs nts v e c d sp a m He Hc Hd Hsp Ha Hm)|].
  rewrite Hname. unfold pace_ms.
  assert (Hz : Qeq_bool sp 0 = true) by (by apply Qeq_bool_iff).
  rewrite Hz. cbn [dayjs_duration getDurationString format_mmss].
  rewrite ?append_assoc.
  change ("Pace: " ++ "NaN:NaN" ++ ?r) with ("Pace: NaN:NaN" ++ r).
  repeat first [ apply contains_here | apply contains_later ].
Qed.

(** ** The further properties at the workouts of the test data *)

Lemma calcBody_zero_speed_witness :
  exists b, calcBody iso_reader no_text standstill = Returned b /\
            contains "Pace: NaN:NaN" b = true.
Proof.
  apply (calcBody_zero_speed iso_reader no_text standstill 0);
    [vm_compute; reflexivity | reflexivity | reflexivity | reflexivity].
Defined.

Lemma mergeData_only_appends_witness :
  exists ins,
    rows (merged [walkA] [walkA; hikeB]) = ([walkA] ++ ins)%list /\
    (forall w, w ∈ ins -> w ∈ [walkA; hikeB]) /\
    (length (calls (merged [walkA] [walkA; hikeB])) <= length ins)%nat /\
    (length ins <= length [walkA; hikeB])%nat.
Proof.
  apply (mergeData_only_appends no_sql_text no_sql_text never_throws). apply reach_run.
Defined.

Lemma mergeData_null_element_witness :
  exists st, tasks (merged [] [JNull; hikeB]) !! 0%nat = Some (JNull, st) /\
             (st = AwaitCount \/ st = Settled CheckFailed) /\
             count_occ Nat.eq_dec (calls (merged [] [JNull; hikeB])) 0%nat = 0%nat.
Proof.
  apply (mergeData_null_element no_sql_text no_sql_text never_throws [] [JNull; hikeB]);
    [apply reach_run | reflexivity].
Defined.

Lemma mergeData_missing_start_not_deduplicated_witness :
  rows (merged (rows (merged [] [noStart])) [noStart]) = ([] ++ [noStart; noStart])%list /\
  calls (merged [] [noStart]) = [0%nat] /\
  calls (merged (rows (merged [] [noStart])) [noStart]) = [0%nat].
Proof.
  apply (mergeData_missing_start_not_deduplicated no_sql_text no_sql_text never_throws
           [] noStart).
  - discriminate.
  - left. reflexivity.
  - split; [apply reach_run | vm_compute; reflexivity].
  - unfold no_store_error. evaluate_tasks. repeat constructor.
  - split; [apply reach_run | vm_compute; reflexivity].
  - unfold no_store_error. evaluate_tasks. repeat constructor.
Defined.

Lemma restart_matches_live_witness :
  let s := merged_by_app [walkA] [walkA; hikeB] in
  exists reloaded added,
    start_calendar iso_reader no_text utc_startOf_day (rows s) []
    = Returned ([ical_of iso_reader utc_startOf_day
                   (mkEvent (Some (JStr "2021-09-26T20:00:00")) "Cardio - walk"
                      ("15:00" ++ LF ++ "100 calories" ++ LF ++ "1.00 miles" ++ LF ++ LF ++
                       "Pace: 15:00" ++ LF ++ "HR: 120 - 140 bpm" ++ LF))] ++ reloaded)%list /\
    calendar_after iso_reader no_text utc_startOf_day [walkA; hikeB] (calls s)
      [ical_of iso_reader utc_startOf_day
         (mkEvent (Some (JStr "2021-09-26T20:00:00")) "Cardio - walk"
            ("15:00" ++ LF ++ "100 calories" ++ LF ++ "1.00 miles" ++ LF ++ LF ++
             "Pace: 15:00" ++ LF ++ "HR: 120 - 140 bpm" ++ LF))]
    = ([ical_of iso_reader utc_startOf_day
          (mkEvent (Some (JStr "2021-09-26T20:00:00")) "Cardio - walk"
             ("15:00" ++ LF ++ "100 calories" ++ LF ++ "1.00 miles" ++ LF ++ LF ++
              "Pace: 15:00" ++ LF ++ "HR: 120 - 140 bpm" ++ LF))] ++ added)%list /\
    reloaded ≡ₚ added.
Proof.
  cbv zeta.
  apply (restart_matches_live iso_reader no_text utc_startOf_day no_sql_text no_sql_text
           [walkA] [walkA; hikeB] (merged_by_app [walkA] [walkA; hikeB]) []).
  - split; [apply reach_run | vm_compute; reflexivity].
  - unfold no_store_error. evaluate_tasks. repeat constructor.
  - vm_compute. reflexivity.
Defined.

Lemma onPostWorkoutData_effects_witness :
  let s := merged_by_app [] [walkA] in
  let a' := mkApp (rows s)
                  (calendar_after iso_reader no_text utc_startOf_day [walkA] (calls s) [])
                  (Some (posted [walkA])) in
  onPostWorkoutData iso_reader no_text utc_startOf_day no_sql_text no_sql_text sampleConfig
                    [("x-secret", PStr "s3cret")] (posted [walkA]) (mkApp [] [] None)
                    200 a' /\
  dataFile a' = [walkA] /\ length (calendar a') = 1%nat /\
  (200 = 403 <->
   assoc (headerSecretKey sampleConfig) [("x-secret", PStr "s3cret")]
   <> Some (PStr (headerSecretVal sampleConfig))).
Proof.
  cbv zeta.
  assert (H : onPostWorkoutData iso_reader no_text utc_startOf_day no_sql_text no_sql_text
                sampleConfig [("x-secret", PStr "s3cret")] (posted [walkA]) (mkApp [] [] None)
                200
                (mkApp (rows (merged_by_app [] [walkA]))
                       (calendar_after iso_reader no_text utc_startOf_day [walkA]
                          (calls (merged_by_app [] [walkA])) [])
                       (Some (posted [walkA])))).
  { apply (post_ok iso_reader no_text utc_startOf_day no_sql_text no_sql_text sampleConfig
             [("x-secret", PStr "s3cret")] (posted [walkA]) (mkApp [] [] None)
             [walkA] (merged_by_app [] [walkA])); try reflexivity.
    split; [apply reach_run | vm_compute; reflexivity]. }
  split; [exact H|]. split; [vm_compute; reflexivity|]. split; [vm_compute; reflexivity|].
  exact (proj1 (onPostWorkoutData_effects iso_reader no_text utc_startOf_day
                  no_sql_text no_sql_text sampleConfig _ _ _ _ _ H)).
Defined.

(** ** Further properties: names and the calendar feed *)

Lemma mem_In (k : string) (ks : list string) : mem k ks = true <-> In k ks.
Proof.
  unfold mem. rewrite existsb_exists. split.
  - intros (x & Hx & ->%String.eqb_eq). exact Hx.
  - intros H. exists k. split; [exact H | apply String.eqb_refl].
Qed.

(** X17. Among the events createFromWorkoutData builds, the ones titled
    "DEFAULT" are exactly those whose record is named after a property
    inherited from [Object.prototype]; every other event built has one of
    the eight names. *)
Theorem DEFAULT_title_iff_inherited_name dayjs nts (v : json) (e : CalendarWorkoutEvent) :
  createFromWorkoutData dayjs nts v = Returned (Some e) ->
  exists n, js_get "name" v = Some (JStr n) /\
            (getName e = "DEFAULT" <-> In n Object_prototype_keys) /\
            (getName e <> "DEFAULT" <-> In n allowedWorkoutNames).
Proof.
  intros Hc. destruct (created_event dayjs nts v e Hc) as (_ & (n & Hn & Hin) & -> & _).
  exists n. split; [exact Hn|]. cbn [getName ev_name].
  destruct (mem n allowedWorkoutNames) eqn:Hal.
  - apply mem_In in Hal.
    assert (Hd : calcName v <> "DEFAULT").
    { rewrite (calcName_allowed v n Hn Hal).
      pose proof (spec_title_in n (js_truthy (js_get "isIndoor" v))) as Ht.
      intros E. rewrite E in Ht. cbn in Ht. intuition discriminate. }
    assert (Hp : ~ In n Object_prototype_keys).
    { apply allowed_cases in Hal.
      repeat destruct Hal as [Hal|Hal]; subst; cbn; intuition discriminate. }
    split; split; intros; tauto.
  - assert (Hd : calcName v = "DEFAULT").
    { unfold calcName. rewrite Hn. unfold mem in Hal. cbn in Hal.
      repeat (apply orb_false_elim in Hal as [? Hal]).
      repeat match goal with H : String.eqb _ _ = false |- _ => rewrite H; clear H end.
      reflexivity. }
    unfold js_in in Hin. rewrite Hal, orb_false_l in Hin. apply mem_In in Hin.
    assert (Hna : ~ In n allowedWorkoutNames).
    { intros H. apply mem_In in H. congruence. }
    split; split; intros; tauto.
Qed.

Lemma DEFAULT_title_iff_inherited_name_witness :
  exists n,
    js_get "name" (sampleData "valueOf" "2021-09-26T20:00:00" "2021-09-26T20:15:00" [])
    = Some (JStr n) /\
    ("DEFAULT" = "DEFAULT" <-> In n Object_prototype_keys) /\
    ("DEFAULT" <> "DEFAULT" <-> In n allowedWorkoutNames).
Proof.
  apply (DEFAULT_title_iff_inherited_name iso_reader no_text
           (sampleData "valueOf" "2021-09-26T20:00:00" "2021-09-26T20:15:00" [])
           (mkEvent (Some (JStr "2021-09-26T20:00:00")) "DEFAULT"
              ("15:00" ++ LF ++ "100 calories" ++ LF ++ "1.00 miles" ++ LF ++ LF ++
               "Pace: 15:00" ++ LF ++ "HR: 120 - 140 bpm" ++ LF))).
  vm_compute. reflexivity.
Defined.

(** X16. GET /workoutCalendar serves the calendar, as it is, exactly when
    the query string carries the secret as a single string equal to the
    secret value; a missing secret, another value, or a repeated
    parameter is answered 403. *)
Theorem onGetWorkoutCalendar_serves_iff (config : IWorkoutsToIcalAppConfig)
        (query : list (string * param)) (cal : list ICalEvent) :
  (onGetWorkoutCalendar config query cal = Served cal <->
   assoc (querystringSecretKey config) query
   = Some (PStr (querystringSecretVal config))) /\
  (onGetWorkoutCalendar config query cal = Status 403 <->
   assoc (querystringSecretKey config) query
   <> Some (PStr (querystringSecretVal config))).
Proof.
  unfold onGetWorkoutCalendar.
  destruct (assoc _ query) as [[v|]|]; cbn; [| split; split; congruence ..].
  destruct (String.eqb_spec v (querystringSecretVal config)); cbn; split; split; congruence.
Qed.

(** ** mergeData along a schedule *)

(** The count query counts the rows of the start column. *)
Lemma count_start_stored (sqlite_text : json -> string) (db : table) (k : string) :
  count_start sqlite_text db (Some k)
  = count_occ string_dec (stored_starts sqlite_text db) k.
Proof.
  unfold count_start, stored_starts. induction db as [|row db IH]; [done|].
  rewrite filter_cons. cbn [omap list_omap].
  pose proof (start_eq_iff sqlite_text row k) as Hiff.
  destruct (start_column sqlite_text row) as [c|] eqn:Hc.
  - destruct (string_dec c k) as [->|Hne].
    + rewrite count_occ_cons_eq by done.
      destruct (decide (start_eq sqlite_text row (Some k) = true)) as [_|Hn]; cbn; [by rewrite IH|].
      destruct Hn. by apply Hiff.
    + rewrite count_occ_cons_neq by done.
      destruct (decide (start_eq sqlite_text row (Some k) = true)) as [He|_]; [|exact IH].
      apply Hiff in He. congruence.
  - destruct (decide (start_eq sqlite_text row (Some k) = true)) as [He|_]; [|exact IH].
    apply Hiff in He. discriminate.
Qed.

Section MergeRuns.
Variables (sqlite_text bound_text : json -> string) (throws : json -> bool).

Local Abbreviation step := (step sqlite_text bound_text throws).
Local Abbreviation reach := (reach sqlite_text bound_text throws).
Local Abbreviation run := (run sqlite_text bound_text throws).
Local Abbreviation moves := (moves sqlite_text bound_text throws).
Local Abbreviation count_start := (count_start sqlite_text).
Local Abbreviation bound_start := (bound_start bound_text).
Local Abbreviation mergeData := (mergeData sqlite_text bound_text throws).
Local Abbreviation step_moves := (step_moves sqlite_text bound_text throws).
Local Abbreviation stored_starts := (stored_starts sqlite_text).
Local Abbreviation count_start_stored := (count_start_stored sqlite_text).

Lemma run_app (s : mstate) (a b : list (nat * bool)) :
  run s (a ++ b) = run (run s a) b.
Proof.
  revert s. induction a as [|[i ok] a IH]; intros s; cbn; [done|].
  destruct (step s i ok); apply IH.
Qed.

(** Every state a call can reach is the end of a schedule. *)
Lemma reach_is_run (s0 s : mstate) : reach s0 s -> exists sched, s = run s0 sched.
Proof.
  induction 1 as [s|s i ok s' s'' _ [sched ->] Hstep].
  - by exists [].
  - exists (sched ++ [(i, ok)])%list. rewrite run_app. cbn. by rewrite Hstep.
Qed.

(** Resuming another element leaves an element's stage and its calls as
    they are, and takes no row away. *)
Lemma step_other (s s' : mstate) (i j : nat) (ok : bool) :
  step s j ok = Some s' -> j <> i ->
  tasks s' !! i = tasks s !! i /\
  count_occ Nat.eq_dec (calls s') i = count_occ Nat.eq_dec (calls s) i.
Proof.
  intros (w & st & st' & c & Hj & Hm & Ht & Hc)%step_moves Hne.
  rewrite Ht, Hc, list_lookup_insert_ne by done. split; [done|].
  destruct c; [|done]. rewrite count_occ_app. cbn.
  destruct (Nat.eq_dec j i); [done | lia].
Qed.

Lemma step_rows (s s' : mstate) (j : nat) (ok : bool) (w : json) :
  step s j ok = Some s' -> w ∈ rows s -> w ∈ rows s'.
Proof.
  intros (w' & st & st' & c & Hj & Hm & _)%step_moves Hw.
  destruct Hm; try done. apply elem_of_app. by left.
Qed.

Lemma run_rows (s : mstate) (sched : list (nat * bool)) (w : json) :
  w ∈ rows s -> w ∈ rows (run s sched).
Proof.
  revert s. induction sched as [|[j ok] sched IH]; intros s Hw; cbn; [done|].
  destruct (step s j ok) as [s'|] eqn:Hs; [|by apply IH].
  apply IH. eapply step_rows; eauto.
Qed.

Lemma run_frame (s : mstate) (sched : list (nat * bool)) (i : nat) :
  Forall (fun e => fst e <> i) sched ->
  tasks (run s sched) !! i = tasks s !! i /\
  count_occ Nat.eq_dec (calls (run s sched)) i = count_occ Nat.eq_dec (calls s) i.
Proof.
  revert s. induction sched as [|[j ok] sched IH]; intros s Hf; cbn; [done|].
  apply Forall_cons in Hf as [Hj Hf]. cbn in Hj.
  destruct (step s j ok) as [s'|] eqn:Hs; [|by apply IH].
  destruct (step_other s s' i j ok Hs Hj) as [Ht Hc].
  destruct (IH s' Hf) as [IH1 IH2]. split; congruence.
Qed.

(** Once an element is past its check, the calls still to come on it are
    decided by the outcomes it is handed, whatever the other elements
    do. *)
Lemma run_from_stage (sched : list (nat * bool)) (s : mstate) (i : nat)
      (w : json) (st : stage) :
  tasks s !! i = Some (w, st) -> st <> AwaitCount ->
  (st = AwaitFinalize -> w ∈ rows s) ->
  count_occ Nat.eq_dec (calls (run s sched)) i
  = (count_occ Nat.eq_dec (calls s) i + calls_ahead st (resumptions_of i sched))%nat /\
  (calls_ahead st (resumptions_of i sched) = 1%nat -> w ∈ rows (run s sched)).
Proof.
  revert s st. induction sched as [|[j ok] sched IH]; intros s st Hi Hst Hrow.
  - cbn. split; [by destruct st; cbn; lia | by destruct st].
  - unfold resumptions_of. rewrite filter_cons. cbn [fst].
    destruct (decide (j = i)) as [->|Hne].
    + rewrite fmap_cons. cbn [snd]. fold (resumptions_of i sched).
      assert (Hlen : (i < length (tasks s))%nat) by (eapply lookup_lt_Some; eauto).
      cbn [run]. unfold step. rewrite Hi.
      destruct st as [| | |r]; [done| | |].
      * destruct ok.
        -- destruct (IH (mkState (rows s ++ [w])%list (<[i := (w, AwaitFinalize)]> (tasks s))
                                 (calls s)) AwaitFinalize) as [IH1 IH2]; cbn;
             [by rewrite list_lookup_insert_eq | done
              | intros _; apply elem_of_app; right; by apply list_elem_of_singleton |].
           cbn in IH1. rewrite IH1. split.
           ++ by destruct (resumptions_of i sched) as [|[]].
           ++ intros H1. apply IH2. by destruct (resumptions_of i sched) as [|[]].
        -- destruct (IH (set_stage s i w (Settled InsertFailed)) (Settled InsertFailed))
             as [IH1 _]; cbn; [by rewrite list_lookup_insert_eq | done | discriminate |].
           cbn in IH1. rewrite IH1. split; [done | discriminate].
      * destruct ok.
        -- set (r := if throws w then CallbackThrew else New).
           destruct (IH (mkState (rows s) (<[i := (w, Settled r)]> (tasks s))
                                 (calls s ++ [i])%list) (Settled r)) as [IH1 _]; cbn;
             [by rewrite list_lookup_insert_eq | done | discriminate |].
           cbn in IH1. rewrite IH1, count_occ_app. cbn.
           destruct (Nat.eq_dec i i); [|done]. split; [lia|].
           intros _. apply run_rows. cbn. by apply Hrow.
        -- destruct (IH (set_stage s i w (Settled FinalizeFailed)) (Settled FinalizeFailed))
             as [IH1 _]; cbn; [by rewrite list_lookup_insert_eq | done | discriminate |].
           cbn in IH1. rewrite IH1. split; [done | discriminate].
      * destruct (IH s (Settled r) Hi Hst Hrow) as [IH1 _]. cbn in IH1 |- *.
        rewrite IH1. split; [done | discriminate].
    + cbn [run]. destruct (step s j ok) as [s'|] eqn:Hs.
      * destruct (step_other s s' i j ok Hs Hne) as [Ht Hc].
        destruct (IH s' st) as [IH1 IH2];
          [by rewrite Ht | done | intros H; eapply step_rows; eauto |].
        fold (resumptions_of i sched). rewrite IH1, Hc. done.
      * fold (resumptions_of i sched). by apply IH.
Qed.

(** C6. One call of mergeData, along any schedule of resumptions and
    store outcomes.  Take a record of the batch and the point of the
    schedule where its existence check is answered.  The callback is
    called on it exactly once, and its row is stored, when its start was
    absent from the table as it stood at that check and the check, the
    insert and the finalize all succeeded; it is called zero times when
    the check raised, when its start was present, and when the insert or
    its finalize raised or has not been resumed yet.  For a record whose
    start is a string, present and absent are also read off the rows
    themselves: the start is the start column of a stored row, or of
    none.  What the other records are handed, their errors included, has
    no part in this, and from wherever the schedule ends the call can
    still be run until every element has settled: no error is
    propagated. *)
Theorem mergeData_callback_exactly_once
        (db : table) (ws : list json) (pre post : list (nat * bool))
        (i : nat) (ok : bool) (w : json) :
  ws !! i = Some w ->
  Forall (fun e => fst e <> i) pre ->
  let at_check := run (mergeData_start db ws) pre in
  let s := run (mergeData_start db ws) (pre ++ (i, ok) :: post) in
  let n := count_occ Nat.eq_dec (calls s) i in
  count_occ Nat.eq_dec (calls at_check) i = 0%nat /\
  (ok = false -> n = 0%nat) /\
  (read_start w = Thrown -> n = 0%nat) /\
  (forall p, read_start w = Returned p ->
             count_start (rows at_check) (bound_start p) <> 0%nat -> n = 0%nat) /\
  (forall p, ok = true -> read_start w = Returned p ->
             count_start (rows at_check) (bound_start p) = 0%nat ->
             match resumptions_of i post with
             | true :: true :: _ => n = 1%nat /\ w ∈ rows s
             | _ => n = 0%nat
             end) /\
  (forall k, start_string w = Some k ->
             (In k (stored_starts (rows at_check)) -> n = 0%nat) /\
             (ok = true -> ~ In k (stored_starts (rows at_check)) ->
              match resumptions_of i post with
              | true :: true :: _ => n = 1%nat /\ w ∈ rows s
              | _ => n = 0%nat
              end)) /\
  (exists s', reach s s' /\ all_settled s' = true).
Proof.
  intros Hw Hpre. cbv zeta.
  set (s0 := mergeData_start db ws). set (sc := run s0 pre).
  assert (Hi0 : tasks s0 !! i = Some (w, AwaitCount))
    by (cbn; by rewrite list_lookup_fmap, Hw).
  destruct (run_frame s0 pre i Hpre) as [Hti Hci]. fold sc in Hti, Hci.
  rewrite Hi0 in Hti. cbn in Hci.
  assert (Hlen : (i < length (tasks sc))%nat) by (eapply lookup_lt_Some; eauto).
  rewrite run_app. fold sc. cbn [run]. unfold step. rewrite Hti.
  assert (Hsettled : forall r,
             count_occ Nat.eq_dec (calls (run (set_stage sc i w (Settled r)) post)) i = 0%nat).
  { intros r.
    destruct (run_from_stage post (set_stage sc i w (Settled r)) i w (Settled r))
      as [-> _]; cbn; [by rewrite list_lookup_insert_eq | done | discriminate | by rewrite Hci]. }
  match goal with
  | |- _ /\ _ /\ _ /\ ?present /\ ?absent /\ _ =>
      assert (Hpresent : present); [|assert (Habsent : absent)]
  end.
  { intros p Hp Hc. rewrite Hp. destruct ok; [|apply Hsettled].
    destruct (Nat.eqb_spec (count_start (rows sc) (bound_start p)) 0); [done|].
    apply Hsettled. }
  { intros p -> Hp Hc. rewrite Hp, Hc. cbn [Nat.eqb].
    destruct (run_from_stage post (set_stage sc i w AwaitInsert) i w AwaitInsert)
      as [Hn Hrow]; cbn; [by rewrite list_lookup_insert_eq | done | discriminate |].
    cbn in Hn. rewrite Hci in Hn. rewrite Hn.
    destruct (resumptions_of i post) as [|[] [|[] l]]; cbn in *; try done.
    split; [done | by apply Hrow]. }
  split_and!.
  - exact Hci.
  - intros ->. apply Hsettled.
  - intros Hth. rewrite Hth. destruct ok; apply Hsettled.
  - exact Hpresent.
  - exact Habsent.
  - intros k Hk.
    destruct (start_string_reads sqlite_text bound_text w k Hk) as (Hread & Hbound & _).
    split.
    + intros Hin. apply (Hpresent _ Hread). rewrite Hbound, count_start_stored.
      apply (count_occ_In string_dec) in Hin. lia.
    + intros Hok Hnin. apply (Habsent _ Hok Hread).
      rewrite Hbound, count_start_stored. by apply count_occ_not_In.
  - apply reach_all_settled.
Qed.

End MergeRuns.

Lemma mergeData_callback_exactly_once_witness :
  let at_check := run no_sql_text no_sql_text never_throws
                      (mergeData_start [walkA] [walkA; hikeB]) [(0%nat, true)] in
  let s := run no_sql_text no_sql_text never_throws
               (mergeData_start [walkA] [walkA; hikeB])
               ([(0%nat, true)] ++ (1%nat, true) :: [(1%nat, true); (1%nat, true)]) in
  let n := count_occ Nat.eq_dec (calls s) 1%nat in
  count_occ Nat.eq_dec (calls at_check) 1%nat = 0%nat /\
  (true = false -> n = 0%nat) /\
  (read_start hikeB = Thrown -> n = 0%nat) /\
  (forall p, read_start hikeB = Returned p ->
             count_start no_sql_text (rows at_check) (bound_start no_sql_text p) <> 0%nat ->
             n = 0%nat) /\
  (forall p, true = true -> read_start hikeB = Returned p ->
             count_start no_sql_text (rows at_check) (bound_start no_sql_text p) = 0%nat ->
             match resumptions_of 1%nat [(1%nat, true); (1%nat, true)] with
             | true :: true :: _ => n = 1%nat /\ hikeB ∈ rows s
             | _ => n = 0%nat
             end) /\
  (forall k, start_string hikeB = Some k ->
             (In k (stored_starts no_sql_text (rows at_check)) -> n = 0%nat) /\
             (true = true -> ~ In k (stored_starts no_sql_text (rows at_check)) ->
              match resumptions_of 1%nat [(1%nat, true); (1%nat, true)] with
              | true :: true :: _ => n = 1%nat /\ hikeB ∈ rows s
              | _ => n = 0%nat
              end)) /\
  (exists s', reach no_sql_text no_sql_text never_throws s s' /\ all_settled s' = true).
Proof.
  apply (mergeData_callback_exactly_once no_sql_text no_sql_text never_throws
           [walkA] [walkA; hikeB] [(0%nat, true)] [(1%nat, true); (1%nat, true)]
           1%nat true hikeB).
  - reflexivity.
  - repeat constructor. cbn. lia.
Defined.

(** ** mergeData twice, in terms of the rows *)

Section MergeTwice.
Variables (sqlite_text bound_text : json -> string) (throws : json -> bool).

Local Abbreviation reach := (reach sqlite_text bound_text throws).
Local Abbreviation count_start := (count_start sqlite_text).
Local Abbreviation mergeData := (mergeData sqlite_text bound_text throws).
Local Abbreviation stored_starts := (stored_starts sqlite_text).
Local Abbreviation is_new := (is_new sqlite_text).
Local Abbreviation count_start_stored := (count_start_stored sqlite_text).

Lemma is_new_count (db : table) (w : json) (k : string) :
  start_string w = Some k ->
  (is_new db w = true <-> count_start db (Some k) = 0%nat).
Proof.
  intros Hk. unfold is_new. rewrite Hk, count_start_stored, negb_true_iff.
  rewrite <- count_occ_not_In, <- mem_In. by destruct (mem k (stored_starts db)).
Qed.

Lemma filter_fst {A B} (P : A * B -> Prop) (Q : A -> Prop)
      `{!forall t, Decision (P t)} `{!forall x, Decision (Q x)} (l : list (A * B)) :
  Forall (fun t => P t <-> Q (fst t)) l ->
  fst <$> filter P l = filter Q (fst <$> l).
Proof.
  induction 1 as [|t l Ht _ IH]; [done|]. rewrite fmap_cons, !filter_cons.
  destruct (decide (P t)), (decide (Q t.1)); try tauto; cbn; by rewrite IH.
Qed.

(** C2. Merging a batch of records with pairwise different start strings
    twice, the first call finishing without a store error.  After the
    first call the table is the one before followed by exactly the
    records of the batch that were new to it, each once, in the order
    their inserts were resumed; the callback was called once on each
    record that was new and not at all on the others.  The second call,
    whatever fails in it, leaves the rows as they are and calls the
    callback on nothing, so that each start that was new is the start of
    exactly one stored row and each other start of as many rows as
    before. *)
Theorem mergeData_idempotent (db : table) (ws : list json) (s1 s2 : mstate) :
  distinct_starts ws ->
  mergeData db ws s1 -> no_store_error s1 ->
  mergeData (rows s1) ws s2 ->
  (exists ins,
      rows s1 = (db ++ ins)%list /\
      ins ≡ₚ filter (fun w => is_new db w = true) ws) /\
  rows s2 = rows s1 /\
  (forall j w, ws !! j = Some w ->
               count_occ Nat.eq_dec (calls s1) j = (if is_new db w then 1%nat else 0%nat)) /\
  calls s2 = [] /\
  (forall w k, w ∈ ws -> start_string w = Some k ->
               count_occ string_dec (stored_starts (rows s2)) k
               = (if is_new db w then 1%nat
                  else count_occ string_dec (stored_starts db) k)).
Proof.
  intros Hws H1 Herr H2.
  destruct (merge_twice_counts sqlite_text bound_text throws db ws s1 s2 Hws H1 Herr H2)
    as (Hcount & Hrows2 & Hcalls2).
  destruct H1 as [Hr1 Hall1].
  pose proof (reach_tasks sqlite_text bound_text throws db ws s1 Hr1) as Hts.
  assert (Hstr : forall j w, ws !! j = Some w -> exists k, start_string w = Some k).
  { intros j w Hj. destruct Hws as [Hstr _]. rewrite Forall_lookup in Hstr.
    exact (Hstr j w Hj). }
  assert (Hcase : forall w k, start_string w = Some k ->
            (if decide (count_start db (Some k) = 0%nat) then 1%nat else 0%nat)
            = (if is_new db w then 1%nat else 0%nat) /\
            (if decide (count_start db (Some k) = 0%nat) then 1%nat
             else count_start db (Some k))
            = (if is_new db w then 1%nat else count_start db (Some k))).
  { intros w k Hk. pose proof (is_new_count db w k Hk) as Hiff.
    destruct (decide (count_start db (Some k) = 0%nat)) as [Hz|Hnz], (is_new db w);
      try done; [by apply Hiff in Hz | destruct Hnz; by apply Hiff]. }
  split_and!; try done.
  - destruct (reach_rows sqlite_text bound_text throws db ws s1 Hr1) as (ins & Hrows & Hins).
    exists ins. split; [done|]. rewrite Hins, <- Hts. unfold inserted.
    rewrite (filter_fst (fun t : json * stage => has_row t.2 = true)
                        (fun w => is_new db w = true)); [done|].
    apply Forall_lookup. intros j [w st] Hj. cbn.
    assert (Hwj : ws !! j = Some w) by (by rewrite <- Hts, list_lookup_fmap, Hj).
    destruct (Hstr j w Hwj) as [k Hk].
    destruct (finished_stage sqlite_text bound_text throws db ws Hws s1 j w st k
                Hr1 Hall1 Herr Hj Hk) as [H0 Hseen].
    rewrite (is_new_count db w k Hk).
    destruct (decide (count_start db (Some k) = 0%nat)) as [Hz|Hnz].
    + destruct (H0 Hz) as [_ ->]. done.
    + rewrite (Hseen Hnz). cbn. split; [discriminate | done].
  - intros j w Hj. destruct (Hstr j w Hj) as [k Hk].
    destruct (Hcount j w k Hj Hk) as (_ & -> & _). by apply Hcase.
  - intros w k Hin Hk. apply list_elem_of_lookup in Hin as [j Hj].
    destruct (Hcount j w k Hj Hk) as (Hc & _ & _).
    rewrite <- !count_start_stored, Hc. by apply Hcase.
Qed.

End MergeTwice.

Lemma mergeData_idempotent_witness :
  let ws := [walkA; hikeB] in
  let s1 := merged [walkA] ws in
  let s2 := merged (rows s1) ws in
  (distinct_starts ws /\
   mergeData no_sql_text no_sql_text never_throws [walkA] ws s1 /\ no_store_error s1 /\
   mergeData no_sql_text no_sql_text never_throws (rows s1) ws s2) /\
  (exists ins,
      rows s1 = ([walkA] ++ ins)%list /\
      ins ≡ₚ filter (fun w => is_new no_sql_text [walkA] w = true) ws) /\
  rows s2 = rows s1 /\
  (forall j w, ws !! j = Some w ->
               count_occ Nat.eq_dec (calls s1) j
               = (if is_new no_sql_text [walkA] w then 1%nat else 0%nat)) /\
  calls s2 = [] /\
  (forall w k, w ∈ ws -> start_string w = Some k ->
               count_occ string_dec (stored_starts no_sql_text (rows s2)) k
               = (if is_new no_sql_text [walkA] w then 1%nat
                  else count_occ string_dec (stored_starts no_sql_text [walkA]) k)).
Proof.
  cbv zeta.
  assert (Hws : distinct_starts [walkA; hikeB]).
  { split; [repeat constructor; by eexists | cbn].
    apply NoDup_cons. split; [rewrite list_elem_of_singleton; discriminate|].
    apply NoDup_singleton. }
  assert (H1 : mergeData no_sql_text no_sql_text never_throws [walkA] [walkA; hikeB]
                         (merged [walkA] [walkA; hikeB]))
    by (split; [apply reach_run | vm_compute; reflexivity]).
  assert (Herr : no_store_error (merged [walkA] [walkA; hikeB])).
  { unfold no_store_error. evaluate_tasks. repeat constructor. }
  assert (H2 : mergeData no_sql_text no_sql_text never_throws
                         (rows (merged [walkA] [walkA; hikeB])) [walkA; hikeB]
                         (merged (rows (merged [walkA] [walkA; hikeB])) [walkA; hikeB]))
    by (split; [apply reach_run | vm_compute; reflexivity]).
  split; [by split_and!|].
  exact (mergeData_idempotent no_sql_text no_sql_text never_throws
           [walkA] [walkA; hikeB] _ _ Hws H1 Herr H2).
Defined.
